(** * The CPU core of the NES emulator (src/core/CPU.js)

    A shallow embedding of the [CPU] class: its register file, the
    memory-mapped bus ([read8], [write8] and the 16-bit readers), the
    hardware stack, the packed status byte, [stall], [reset] and [tick].
    JavaScript numbers are modelled as [Z]; the 32-bit coercions of the
    bitwise operators are written out in module [JS]. *)

From Stdlib Require Import ZArith Lia String List Bool.
From stdpp Require Import base option list gmap.

Local Open Scope Z_scope.

(** ** JavaScript integer operators *)

Module JS.

(** [ToInt32] of the language standard, on integral numbers. *)
Definition ToInt32 (p : Z) : Z := (p + 2 ^ 31) mod 2 ^ 32 - 2 ^ 31.

(** [undefined] (here [None]) coerces to [NaN], and [ToInt32 NaN] is 0. *)
Definition ofValue (r : option Z) : Z :=
  match r with
  | Some p => p
  | None => 0
  end.

(** [p & q] *)
Definition band (p q : Z) : Z := Z.land (ToInt32 p) (ToInt32 q).

(** [p | q] *)
Definition bor (p q : Z) : Z := Z.lor (ToInt32 p) (ToInt32 q).

(** [~p] *)
Definition bnot (p : Z) : Z := Z.lnot (ToInt32 p).

(** [p << k] *)
Definition shl (p k : Z) : Z := ToInt32 (Z.shiftl (ToInt32 p) (k mod 32)).

(** [p >> k], the sign-propagating shift *)
Definition sar (p k : Z) : Z := Z.shiftr (ToInt32 p) (k mod 32).

(** [p % q]: the remainder takes the sign of the dividend. *)
Definition rem (p q : Z) : Z := Z.rem p q.

End JS.

(** ** Work RAM *)

Module CPUMemory.

(** Modelled from the spec: core/CPUMemory.js is not among the sources.
    The spec gives a fixed 2 KiB byte store whose [read8]/[write8] take
    the address modulo 2048 and cannot fail, and a 256-byte [stack]
    view of it at $0100-$01FF.  Cells are bytes: a store keeps the low
    eight bits.  A cell never written reads 0. *)
Record t := mk { cells : gmap Z Z }.

Definition cell (m : t) (k : Z) : Z := default 0 (cells m !! k).

Definition read8 (m : t) (addr : Z) : Z := cell m (addr mod 2048).

Definition write8 (m : t) (addr val : Z) : t :=
  mk (<[addr mod 2048 := val mod 256]> (cells m)).

(** [memory.stack[k]]: an index outside the view reads [undefined]. *)
Definition stack_get (m : t) (k : Z) : option Z :=
  if (0 <=? k) && (k <? 256) then Some (cell m (256 + k)) else None.

(** [memory.stack[k] = val]: a store outside the view is ignored. *)
Definition stack_set (m : t) (k val : Z) : t :=
  if (0 <=? k) && (k <? 256)
  then mk (<[256 + k := val mod 256]> (cells m))
  else m.

End CPUMemory.

(** ** Interrupts and exceptions *)

(** Modelled from the spec: core/constants.js is not among the sources.
    The latch holds [null] or one of the tags NMI and IRQ. *)
Inductive Interrupt : Type :=
| NMI
| IRQ.

(** A JavaScript completion: a value, or a thrown message. *)
Inductive Result (A : Type) : Type :=
| Ok (r : A)
| Throw (msg : string).

Arguments Ok {A} r.
Arguments Throw {A} msg.

(** ** The machine *)

(** The state types of the four peers the CPU is wired to by [connect] and
    [connectROM]. *)
Class Peers : Type := {
  PPU : Type;
  APU : Type;
  Controller : Type;
  Mapper : Type
}.

(** The fields of [CPU], in the order of the constructor.  The peers are
    taken as connected.  [stdout] is the host console written by
    [console.log]. *)
Record CPU `{Peers} : Type := mkCPU {
  memory : CPUMemory.t;
  mapper : Mapper;
  apu : APU;
  ppu : PPU;
  controller : Controller;
  cycles : Z;
  b : Z;
  pc : Z;
  sp : Z;
  a : Z;
  x : Z;
  y : Z;
  c : Z;
  z : Z;
  i : Z;
  d : Z;
  v : Z;
  n : Z;
  interrupt : option Interrupt;
  stallCounter : Z;
  stdout : list string
}.

Arguments mkCPU {_} _ _ _ _ _ _ _ _ _ _ _ _ _ _ _ _ _ _ _ _ _.

(** Field updates, one per assignable field. *)

Section Fields.

Context `{Peers}.

Definition set_memory (val : CPUMemory.t) (s : CPU) : CPU :=
  mkCPU val (mapper s) (apu s) (ppu s) (controller s) (cycles s) (b s)
    (pc s) (sp s) (a s) (x s) (y s) (c s) (z s) (i s) (d s) (v s) (n s)
    (interrupt s) (stallCounter s) (stdout s).

Definition set_mapper (val : Mapper) (s : CPU) : CPU :=
  mkCPU (memory s) val (apu s) (ppu s) (controller s) (cycles s) (b s)
    (pc s) (sp s) (a s) (x s) (y s) (c s) (z s) (i s) (d s) (v s) (n s)
    (interrupt s) (stallCounter s) (stdout s).

Definition set_apu (val : APU) (s : CPU) : CPU :=
  mkCPU (memory s) (mapper s) val (ppu s) (controller s) (cycles s) (b s)
    (pc s) (sp s) (a s) (x s) (y s) (c s) (z s) (i s) (d s) (v s) (n s)
    (interrupt s) (stallCounter s) (stdout s).

Definition set_controller (val : Controller) (s : CPU) : CPU :=
  mkCPU (memory s) (mapper s) (apu s) (ppu s) val (cycles s) (b s) (pc s)
    (sp s) (a s) (x s) (y s) (c s) (z s) (i s) (d s) (v s) (n s)
    (interrupt s) (stallCounter s) (stdout s).

Definition set_cycles (val : Z) (s : CPU) : CPU :=
  mkCPU (memory s) (mapper s) (apu s) (ppu s) (controller s) val (b s)
    (pc s) (sp s) (a s) (x s) (y s) (c s) (z s) (i s) (d s) (v s) (n s)
    (interrupt s) (stallCounter s) (stdout s).

Definition set_b (val : Z) (s : CPU) : CPU :=
  mkCPU (memory s) (mapper s) (apu s) (ppu s) (controller s) (cycles s) val
    (pc s) (sp s) (a s) (x s) (y s) (c s) (z s) (i s) (d s) (v s) (n s)
    (interrupt s) (stallCounter s) (stdout s).

Definition set_pc (val : Z) (s : CPU) : CPU :=
  mkCPU (memory s) (mapper s) (apu s) (ppu s) (controller s) (cycles s)
    (b s) val (sp s) (a s) (x s) (y s) (c s) (z s) (i s) (d s) (v s) (n s)
    (interrupt s) (stallCounter s) (stdout s).

Definition set_sp (val : Z) (s : CPU) : CPU :=
  mkCPU (memory s) (mapper s) (apu s) (ppu s) (controller s) (cycles s)
    (b s) (pc s) val (a s) (x s) (y s) (c s) (z s) (i s) (d s) (v s) (n s)
    (interrupt s) (stallCounter s) (stdout s).

Definition set_a (val : Z) (s : CPU) : CPU :=
  mkCPU (memory s) (mapper s) (apu s) (ppu s) (controller s) (cycles s)
    (b s) (pc s) (sp s) val (x s) (y s) (c s) (z s) (i s) (d s) (v s) (n s)
    (interrupt s) (stallCounter s) (stdout s).

Definition set_x (val : Z) (s : CPU) : CPU :=
  mkCPU (memory s) (mapper s) (apu s) (ppu s) (controller s) (cycles s)
    (b s) (pc s) (sp s) (a s) val (y s) (c s) (z s) (i s) (d s) (v s) (n s)
    (interrupt s) (stallCounter s) (stdout s).

Definition set_y (val : Z) (s : CPU) : CPU :=
  mkCPU (memory s) (mapper s) (apu s) (ppu s) (controller s) (cycles s)
    (b s) (pc s) (sp s) (a s) (x s) val (c s) (z s) (i s) (d s) (v s) (n s)
    (interrupt s) (stallCounter s) (stdout s).

Definition set_c (val : Z) (s : CPU) : CPU :=
  mkCPU (memory s) (mapper s) (apu s) (ppu s) (controller s) (cycles s)
    (b s) (pc s) (sp s) (a s) (x s) (y s) val (z s) (i s) (d s) (v s) (n s)
    (interrupt s) (stallCounter s) (stdout s).

Definition set_z (val : Z) (s : CPU) : CPU :=
  mkCPU (memory s) (mapper s) (apu s) (ppu s) (controller s) (cycles s)
    (b s) (pc s) (sp s) (a s) (x s) (y s) (c s) val (i s) (d s) (v s) (n s)
    (interrupt s) (stallCounter s) (stdout s).

Definition set_i (val : Z) (s : CPU) : CPU :=
  mkCPU (memory s) (mapper s) (apu s) (ppu s) (controller s) (cycles s)
    (b s) (pc s) (sp s) (a s) (x s) (y s) (c s) (z s) val (d s) (v s) (n s)
    (interrupt s) (stallCounter s) (stdout s).

Definition set_d (val : Z) (s : CPU) : CPU :=
  mkCPU (memory s) (mapper s) (apu s) (ppu s) (controller s) (cycles s)
    (b s) (pc s) (sp s) (a s) (x s) (y s) (c s) (z s) (i s) val (v s) (n s)
    (interrupt s) (stallCounter s) (stdout s).

Definition set_v (val : Z) (s : CPU) : CPU :=
  mkCPU (memory s) (mapper s) (apu s) (ppu s) (controller s) (cycles s)
    (b s) (pc s) (sp s) (a s) (x s) (y s) (c s) (z s) (i s) (d s) val (n s)
    (interrupt s) (stallCounter s) (stdout s).

Definition set_n (val : Z) (s : CPU) : CPU :=
  mkCPU (memory s) (mapper s) (apu s) (ppu s) (controller s) (cycles s)
    (b s) (pc s) (sp s) (a s) (x s) (y s) (c s) (z s) (i s) (d s) (v s) val
    (interrupt s) (stallCounter s) (stdout s).

Definition set_interrupt (val : option Interrupt) (s : CPU) : CPU :=
  mkCPU (memory s) (mapper s) (apu s) (ppu s) (controller s) (cycles s)
    (b s) (pc s) (sp s) (a s) (x s) (y s) (c s) (z s) (i s) (d s) (v s)
    (n s) val (stallCounter s) (stdout s).

Definition set_stallCounter (val : Z) (s : CPU) : CPU :=
  mkCPU (memory s) (mapper s) (apu s) (ppu s) (controller s) (cycles s)
    (b s) (pc s) (sp s) (a s) (x s) (y s) (c s) (z s) (i s) (d s) (v s)
    (n s) (interrupt s) val (stdout s).

Definition set_stdout (val : list string) (s : CPU) : CPU :=
  mkCPU (memory s) (mapper s) (apu s) (ppu s) (controller s) (cycles s)
    (b s) (pc s) (sp s) (a s) (x s) (y s) (c s) (z s) (i s) (d s) (v s)
    (n s) (interrupt s) (stallCounter s) val.

End Fields.

(** The peers' register interfaces.  Their classes are outside core/CPU.js,
    so they stay abstract.  The PPU keeps a reference to the CPU (it
    raises NMI and, on an OAM DMA, reads CPU memory and calls [stall]) and
    shares the mapper object, so its accesses transform the whole machine;
    the other peers act on their own state. *)
Class Bus `{Peers} : Type := {
  ppu_read8 : Z -> CPU -> Z * CPU;
  ppu_write8 : Z -> Z -> CPU -> CPU;
  apu_read8 : APU -> Z * APU;
  apu_write8 : Z -> Z -> APU -> APU;
  controller_read8 : Controller -> Z * Controller;
  controller_write8 : Z -> Controller -> Controller;
  mapper_read8 : Z -> Mapper -> Z * Mapper;
  mapper_write8 : Z -> Z -> Mapper -> Mapper
}.

(** The dispatch tables [_instructions], [_modes] and [_opcodes]
    (instructions.js, modes.js and opcodes.js, outside core/CPU.js).  An
    entry of [instructions] is [(opCode, mode, size, cycles)]. *)
Class Tables `{Peers} : Type := {
  Operand : Type;
  instructions : Z -> Z * Z * Z * Z;
  modes : Z -> CPU -> Result (Operand * CPU);
  opcodes : Z -> Operand -> CPU -> Result CPU
}.

Section Machine.

Context `{Peers} {bus : Bus} {tables : Tables}.

(** *** DMA stall *)

Definition stall (s : CPU) : CPU :=
  if JS.rem (cycles s) 2 =? 1
  then set_stallCounter (stallCounter s + 514) s
  else set_stallCounter (stallCounter s + 513) s.

(** *** Read and write methods *)

Definition read8 (addr : Z) (s : CPU) : Z * CPU :=
  if addr <? 0x2000 then
    (CPUMemory.read8 (memory s) addr, s)
  else if addr <? 0x4000 then
    ppu_read8 (0x2000 + JS.rem addr 8) s
  else if addr =? 0x4014 then
    ppu_read8 addr s
  else if addr =? 0x4015 then
    let '(r, p) := apu_read8 (apu s) in (r, set_apu p s)
  else if addr =? 0x4016 then
    let '(r, p) := controller_read8 (controller s) in (r, set_controller p s)
  else if addr =? 0x4017 then
    (0, s)
  else if addr <? 0x6000 then
    (0, set_stdout (stdout s ++ ["I/O REGISTERS"%string]) s)
  else
    let '(r, p) := mapper_read8 addr (mapper s) in (r, set_mapper p s).

(** The operands of [|] are evaluated left to right: the high byte is read
    first. *)
Definition read16 (addr : Z) (s : CPU) : Z * CPU :=
  let '(hi, s) := read8 (addr + 1) s in
  let '(lo, s) := read8 addr s in
  (JS.bor (JS.shl hi 8) lo, s).

Definition read16indirect (addr : Z) (s : CPU) : Z * CPU :=
  let addr2 :=
    JS.bor (JS.band addr 0xFF00) (JS.band (JS.band addr 0xFF + 1) 0xFF) in
  let '(lo, s) := read8 addr s in
  let '(hi, s) := read8 addr2 s in
  (JS.bor (JS.shl hi 8) lo, s).

Definition write8 (addr val : Z) (s : CPU) : CPU :=
  if addr <? 0x2000 then
    set_memory (CPUMemory.write8 (memory s) addr val) s
  else if addr <? 0x4000 then
    ppu_write8 (0x2000 + JS.rem addr 8) val s
  else if addr =? 0x4014 then
    ppu_write8 0x4014 val s
  else if addr =? 0x4015 then
    set_apu (apu_write8 addr val (apu s)) s
  else if addr =? 0x4016 then
    set_controller (controller_write8 val (controller s)) s
  else if addr =? 0x4017 then
    s
  else if 0x6000 <=? addr then
    set_mapper (mapper_write8 addr val (mapper s)) s
  else if addr <? 0x6000 then
    s
  else
    s.

(** *** Stack methods *)

Definition stackPush8 (val : Z) (s : CPU) : CPU :=
  let s := set_memory (CPUMemory.stack_set (memory s) (sp s) val) s in
  set_sp (JS.band (sp s - 1) 0xFF) s.

Definition stackPush16 (val : Z) (s : CPU) : CPU :=
  let s := stackPush8 (JS.sar val 8) s in
  stackPush8 (JS.band val 0xFF) s.

Definition stackPull8 (s : CPU) : option Z * CPU :=
  let s := set_sp (JS.band (sp s + 1) 0xFF) s in
  (CPUMemory.stack_get (memory s) (sp s), s).

Definition stackPull16 (s : CPU) : Z * CPU :=
  let '(lo, s) := stackPull8 s in
  let '(hi, s) := stackPull8 s in
  (JS.bor (JS.ofValue lo) (JS.shl (JS.ofValue hi) 8), s).

(** *** Flag methods *)

Definition setZeroFlag (val : Z) (s : CPU) : CPU :=
  if val =? 0 then set_z 1 s else set_z 0 s.

Definition setNegativeFlag (val : Z) (s : CPU) : CPU :=
  if negb (JS.band val 0x80 =? 0) then set_n 1 s else set_n 0 s.

Definition getFlags (s : CPU) : Z :=
  let flags := 0 in
  let flags := JS.bor flags (JS.shl (c s) 0) in
  let flags := JS.bor flags (JS.shl (z s) 1) in
  let flags := JS.bor flags (JS.shl (i s) 2) in
  let flags := JS.bor flags (JS.shl (d s) 3) in
  let flags := JS.bor flags (JS.shl 0 4) in
  let flags := JS.bor flags (JS.shl 1 5) in
  let flags := JS.bor flags (JS.shl (v s) 6) in
  let flags := JS.bor flags (JS.shl (n s) 7) in
  flags.

Definition setFlags (val : Z) (s : CPU) : CPU :=
  let s := set_c (JS.band (JS.sar val 0) 1) s in
  let s := set_z (JS.band (JS.sar val 1) 1) s in
  let s := set_i (JS.band (JS.sar val 2) 1) s in
  let s := set_d (JS.band (JS.sar val 3) 1) s in
  let s := set_v (JS.band (JS.sar val 6) 1) s in
  set_n (JS.band (JS.sar val 7) 1) s.

(** *** Reset *)

Definition reset (s : CPU) : CPU :=
  let s := set_cycles 0 s in
  let s := set_a 0 s in
  let s := set_x 0 s in
  let s := set_y 0 s in
  let s := set_interrupt None s in
  let s := set_stallCounter 0 s in
  let '(vec, s) := read16 0xFFFC s in
  let s := set_pc vec s in
  let s := set_sp 0xFD s in
  setFlags 0x24 s.

(** *** Interrupts *)

Definition triggerNMI (s : CPU) : CPU := set_interrupt (Some NMI) s.

(** *** One step *)

(** The result is the cycle count handed to the scheduler.  The bus of the
    model cannot throw, so the handler around the opcode fetch is never
    entered; an exception of the addressing mode propagates as it is, one
    of the opcode is rethrown with a prefix. *)
Definition tick (s : CPU) : Result (Z * CPU) :=
  let _cycles := cycles s in
  let s := set_b 0 s in
  if 0 <? stallCounter s then
    let s := set_stallCounter (stallCounter s - 1) s in
    Ok (0, s)
  else
    match interrupt s with
    | Some irq =>
        let s :=
          match irq with
          | NMI =>
              let s := stackPush16 (pc s) s in
              let s := stackPush8 (JS.band (getFlags s) (JS.bnot 0x10)) s in
              let '(vec, s) := read16 0xFFFA s in
              let s := set_pc vec s in
              let s := set_i 1 s in
              set_cycles (cycles s + 7) s
          | _ => s
          end in
        let s := set_interrupt None s in
        Ok (7, s)
    | None =>
        let '(instrCode, s) := read8 (pc s) s in
        let '(opCode, mode, size, cyc) := instructions instrCode in
        match modes mode s with
        | Throw err => Throw err
        | Ok (addr, s) =>
            let s := set_pc (pc s + size) s in
            let s := set_cycles (cycles s + cyc) s in
            match opcodes opCode addr s with
            | Throw err =>
                Throw (String.append "Failed to process opcode: " err)
            | Ok s => Ok (cycles s - _cycles, s)
            end
        end
    end.

(** *** The statements of the specification *)

(** The address of the high byte of an indirect pointer, in the words of
    the specification: [(addr & $FF00) | ((addr + 1) & $FF)]. *)
Definition indirect_hi_addr (addr : Z) : Z :=
  Z.lor (Z.land addr 0xFF00) (Z.land (addr + 1) 0xFF).

(** The indirect read as the specification words it: the low byte comes
    from [addr], the high byte from [indirect_hi_addr addr]. *)
Definition read16indirect_spec (addr : Z) (s : CPU) : Z * CPU :=
  let '(lo, s) := read8 addr s in
  let '(hi, s) := read8 (indirect_hi_addr addr) s in
  (JS.bor (JS.shl hi 8) lo, s).

(** Consecutive [stackPush8] calls, one per element of [vals]. *)
Definition stackPushAll (vals : list Z) (s : CPU) : CPU :=
  fold_left (fun s val => stackPush8 val s) vals s.

(** The bus address of [memory.stack[k]]. *)
Definition stackAddr (k : Z) : Z := 0x0100 + k.

(** Where [stackPush16 val] stores the high and the low byte of [val]:
    the cell under [sp] on entry, and the cell under [sp] after the first
    of its two pushes. *)
Definition push16_hi_addr (s : CPU) : Z := stackAddr (sp s).

Definition push16_lo_addr (val : Z) (s : CPU) : Z :=
  stackAddr (sp (stackPush8 (JS.sar val 8) s)).

(** The reserved windows of the memory map: $4017, $4000-$4013 and
    $4018-$5FFF. *)
Definition reserved (addr : Z) : bool :=
  (addr =? 0x4017)
  || ((0x4000 <=? addr) && (addr <=? 0x4013))
  || ((0x4018 <=? addr) && (addr <=? 0x5FFF)).

(** [s'] has the program counter, stack pointer, registers, flags and
    cycle count of [s]. *)
Definition same_registers (s s' : CPU) : Prop :=
  pc s' = pc s /\ sp s' = sp s
  /\ a s' = a s /\ x s' = x s /\ y s' = y s
  /\ c s' = c s /\ z s' = z s /\ i s' = i s
  /\ d s' = d s /\ v s' = v s /\ n s' = n s
  /\ cycles s' = cycles s.

(** A flag holds 0 or 1. *)
Definition bit (f : Z) : Prop := f = 0 \/ f = 1.

Definition flags_are_bits (s : CPU) : Prop :=
  bit (c s) /\ bit (z s) /\ bit (i s) /\ bit (d s) /\ bit (v s) /\ bit (n s).

(** The status byte assembled from six flag bits, B clear and U set. *)
Definition packFlags (fc fz fi fd fv fn : Z) : Z :=
  fc + 2 * fz + 4 * fi + 8 * fd + 32 + 64 * fv + 128 * fn.

(** *** Views of the state *)

(** The CPU's own fields: everything but the RAM, the peers and the host
    console. *)
Definition registers (s : CPU)
    : Z * Z * (Z * Z * Z) * (Z * Z * Z * Z * Z * Z) * (Z * Z)
      * option Interrupt * Z :=
  (pc s, sp s, (a s, x s, y s), (c s, z s, i s, d s, v s, n s),
   (cycles s, b s), interrupt s, stallCounter s).

(** The state with its six flags cleared: two states that agree on it
    differ in their flags at most. *)
Definition forget_flags (s : CPU) : CPU :=
  set_c 0 (set_z 0 (set_i 0 (set_d 0 (set_v 0 (set_n 0 s))))).

(** The state with [sp] and the RAM taken out: two states that agree on it
    differ in the stack pointer and the RAM at most. *)
Definition forget_stack (s : CPU) : CPU :=
  set_sp 0 (set_memory (CPUMemory.mk ∅) s).

(** The widths of the data model: [pc] is 16 bits wide, [sp], [a], [x] and
    [y] are bytes, the flags are bits, the two counters are not negative. *)
Definition well_formed (s : CPU) : Prop :=
  0 <= pc s <= 0xFFFF
  /\ 0 <= sp s <= 0xFF
  /\ 0 <= a s <= 0xFF
  /\ 0 <= x s <= 0xFF
  /\ 0 <= y s <= 0xFF
  /\ flags_are_bits s
  /\ 0 <= cycles s
  /\ 0 <= stallCounter s.

(** The addresses the bus hands to the PPU: $2000-$3FFF and $4014. *)
Definition ppu_window (addr : Z) : bool :=
  ((0x2000 <=? addr) && (addr <? 0x4000)) || (addr =? 0x4014).

(** The cartridge answers the two reads of [read16 addr] with bytes. *)
Definition vector_is_bytes (addr : Z) (s : CPU) : Prop :=
  let '(hi, p) := mapper_read8 (addr + 1) (mapper s) in
  let '(lo, _) := mapper_read8 addr p in
  0 <= hi <= 255 /\ 0 <= lo <= 255.

(** The word the cartridge holds at [addr], high byte read first. *)
Definition vector_word (addr : Z) (s : CPU) : Z :=
  let '(hi, p) := mapper_read8 (addr + 1) (mapper s) in
  let '(lo, _) := mapper_read8 addr p in
  256 * hi + lo.

(** *** Repeated steps *)

(** [k] calls of [tick] in a row, as the scheduler makes them; the cycle
    counts they return are collected in order.  An exception ends the
    run. *)
Fixpoint run (k : nat) (s : CPU) : Result (list Z * CPU) :=
  match k with
  | O => Ok ([], s)
  | S k' =>
      match tick s with
      | Throw err => Throw err
      | Ok (r, s) =>
          match run k' s with
          | Throw err => Throw err
          | Ok (rs, s) => Ok (r :: rs, s)
          end
      end
  end.

End Machine.

(** ** A small console: a ROM-only cartridge and silent peers *)

Module Sample.

#[export] Instance peers : Peers := {|
  PPU := unit;
  APU := unit;
  Controller := unit;
  Mapper := gmap Z Z
|}.

(** The cartridge is a read-only image; an unmapped address reads 0. *)
Definition rom_read8 (addr : Z) (m : gmap Z Z) : Z * gmap Z Z :=
  (default 0 (m !! addr), m).

#[export] Instance bus : @Bus peers := {|
  ppu_read8 := fun _ s => (0, s);
  ppu_write8 := fun _ _ s => s;
  apu_read8 := fun p => (0, p);
  apu_write8 := fun _ _ p => p;
  controller_read8 := fun p => (0, p);
  controller_write8 := fun _ p => p;
  mapper_read8 := rom_read8;
  mapper_write8 := fun _ _ m => m
|}.

(** Every opcode decodes to a one-byte, two-cycle no-op. *)
#[export] Instance tables : @Tables peers := {|
  Operand := unit;
  instructions := fun _ => (0xEA, 0, 1, 2);
  modes := fun _ s => Ok (tt, s);
  opcodes := fun _ _ s => Ok s
|}.

(** Vectors: NMI at $9000, reset at $1234. *)
Definition rom : gmap Z Z :=
  <[0xFFFA := 0x00]> (<[0xFFFB := 0x90]>
    (<[0xFFFC := 0x34]> (<[0xFFFD := 0x12]> ∅))).

(** A machine with the given [pc], [sp], flags C Z I D V N, cycle count,
    interrupt latch and stall counter, and everything else zero. *)
Definition machine (pc0 sp0 : Z) (fl : Z * Z * Z * Z * Z * Z)
    (cycles0 : Z) (irq : option Interrupt) (stall0 : Z) : @CPU peers :=
  let '(fc, fz, fi, fd, fv, fn) := fl in
  mkCPU (CPUMemory.mk ∅) rom tt tt tt cycles0 0 pc0 sp0 0 0 0
    fc fz fi fd fv fn irq stall0 [].

(** The machine of the NMI scenario: [pc] $8000, [sp] $FD, flags $A4. *)
Definition nmi_pending : CPU :=
  machine 0x8000 0xFD (0, 0, 1, 0, 0, 1) 100 (Some NMI) 0.

(** The same machine with the reserved IRQ tag latched. *)
Definition irq_pending : CPU :=
  machine 0x8000 0xFD (0, 0, 1, 0, 0, 1) 100 (Some IRQ) 0.

(** A machine that has just been stalled for a DMA at cycle 100. *)
Definition dma_stalled : CPU :=
  stall (machine 0x8000 0xFD (0, 0, 1, 0, 0, 0) 100 None 0).

(** A machine whose stack pointer is at the bottom of the page. *)
Definition sp_at_zero : CPU :=
  machine 0x8000 0x00 (0, 0, 1, 0, 0, 0) 100 None 0.

(** An idle machine at cycle 100: nothing latched, nothing stalled. *)
Definition idle : CPU :=
  machine 0x8000 0xFD (0, 0, 1, 0, 0, 0) 100 None 0.

(** The state [tick] leaves when it services the NMI of [nmi_pending]. *)
Definition nmi_serviced : CPU :=
  match tick nmi_pending with
  | Ok (_, s) => s
  | Throw _ => nmi_pending
  end.

End Sample.

(** * Properties *)

(** ** Arithmetic of the JavaScript operators *)

Module JSFacts.

Lemma ToInt32_small (p : Z) : - 2 ^ 31 <= p < 2 ^ 31 -> JS.ToInt32 p = p.
Proof.
  intros Hp. unfold JS.ToInt32.
  rewrite Z.mod_small by lia. lia.
Qed.

Lemma ToInt32_mod (p : Z) : JS.ToInt32 p mod 2 ^ 32 = p mod 2 ^ 32.
Proof.
  unfold JS.ToInt32.
  rewrite Zminus_mod_idemp_l. f_equal. lia.
Qed.

Lemma ToInt32_testbit (p k : Z) :
  k < 32 -> Z.testbit (JS.ToInt32 p) k = Z.testbit p k.
Proof.
  intros Hk.
  rewrite <- (Z.mod_pow2_bits_low (JS.ToInt32 p) 32 k) by lia.
  rewrite <- (Z.mod_pow2_bits_low p 32 k) by lia.
  now rewrite ToInt32_mod.
Qed.

Lemma small_testbit_high (m k : Z) :
  0 <= m < 2 ^ 31 -> 31 <= k -> Z.testbit m k = false.
Proof.
  intros Hm Hk.
  rewrite <- (Z.mod_small m (2 ^ 31)) by lia.
  apply Z.mod_pow2_bits_high. lia.
Qed.

(** Masking with a non-negative constant sees only the low bits, so the
    coercion of the other operand drops out. *)
Lemma band_mask (p m : Z) : 0 <= m < 2 ^ 31 -> JS.band p m = Z.land p m.
Proof.
  intros Hm. unfold JS.band.
  rewrite (ToInt32_small m) by lia.
  apply Z.bits_inj'. intros k Hk.
  rewrite !Z.land_spec.
  destruct (Z_lt_le_dec k 31) as [Hlt | Hge].
  - rewrite ToInt32_testbit by lia. reflexivity.
  - rewrite (small_testbit_high m k) by lia.
    now rewrite !andb_false_r.
Qed.

Lemma band_0xFF (p : Z) : JS.band p 0xFF = p mod 256.
Proof.
  rewrite band_mask by lia.
  change 0xFF with (Z.ones 8).
  now rewrite Z.land_ones by lia.
Qed.

Lemma bor_small (p q : Z) :
  - 2 ^ 31 <= p < 2 ^ 31 -> - 2 ^ 31 <= q < 2 ^ 31 ->
  JS.bor p q = Z.lor p q.
Proof.
  intros Hp Hq. unfold JS.bor. now rewrite !ToInt32_small.
Qed.

Lemma shl_small (p k : Z) :
  0 <= k < 32 -> - 2 ^ 31 <= p * 2 ^ k < 2 ^ 31 -> JS.shl p k = p * 2 ^ k.
Proof.
  intros Hk Hp. unfold JS.shl.
  assert (0 < 2 ^ k) by (apply Z.pow_pos_nonneg; lia).
  rewrite (Z.mod_small k 32) by lia.
  rewrite (ToInt32_small p) by nia.
  rewrite Z.shiftl_mul_pow2 by lia.
  now apply ToInt32_small.
Qed.

Lemma sar_small (p k : Z) :
  0 <= k < 32 -> - 2 ^ 31 <= p < 2 ^ 31 -> JS.sar p k = p / 2 ^ k.
Proof.
  intros Hk Hp. unfold JS.sar.
  rewrite (Z.mod_small k 32) by lia.
  rewrite ToInt32_small by lia.
  now rewrite Z.shiftr_div_pow2 by lia.
Qed.

(** A byte placed above a byte: [|] is addition. *)
Lemma lor_bytes (lo hi : Z) :
  0 <= lo < 256 -> Z.lor lo (hi * 256) = lo + hi * 256.
Proof.
  intros Hlo.
  assert (Hdisj : Z.land lo (hi * 256) = 0).
  { apply Z.bits_inj'. intros k Hk.
    rewrite Z.land_spec, Z.bits_0.
    destruct (Z_lt_le_dec k 8) as [Hlt | Hge].
    - change 256 with (2 ^ 8).
      rewrite Z.mul_pow2_bits_low by lia. apply andb_false_r.
    - rewrite <- (Z.mod_small lo (2 ^ 8)) by (change (2 ^ 8) with 256; lia).
      rewrite Z.mod_pow2_bits_high by lia. reflexivity. }
  rewrite <- Z.lxor_lor by exact Hdisj.
  symmetry. now apply Z.add_nocarry_lxor.
Qed.

(** The mask $FF00 selects the second byte. *)
Lemma land_0xFF00 (p : Z) : Z.land p 0xFF00 = 256 * ((p / 256) mod 256).
Proof.
  change 256 with (2 ^ 8) at 1 2.
  rewrite Z.mul_comm, <- Z.shiftr_div_pow2, <- Z.shiftl_mul_pow2 by lia.
  change (2 ^ 8) with 256. change 256 with (2 ^ 8) at 1.
  rewrite <- Z.land_ones, Z.shiftl_land by lia.
  change (Z.shiftl (Z.ones 8) 8) with 0xFF00.
  apply Z.bits_inj'. intros k Hk.
  rewrite !Z.land_spec.
  destruct (Z_lt_le_dec k 8) as [Hlt | Hge].
  - change 0xFF00 with (Z.shiftl 0xFF 8).
    rewrite (Z.shiftl_spec_low 0xFF) by lia.
    now rewrite !andb_false_r.
  - rewrite Z.shiftl_spec, Z.shiftr_spec by lia.
    do 2 f_equal. lia.
Qed.

(** The remainder by two tells the parity of a count. *)
Lemma rem2_count (p : Z) : 0 <= p -> (JS.rem p 2 =? 1) = Z.odd p.
Proof.
  intros Hp. unfold JS.rem.
  rewrite Z.rem_mod_nonneg by lia.
  rewrite Zmod_odd. now destruct (Z.odd p).
Qed.

End JSFacts.

(** ** The stack view *)

Module StackFacts.

Lemma get_set_eq (m : CPUMemory.t) (k val : Z) :
  0 <= k < 256 ->
  CPUMemory.stack_get (CPUMemory.stack_set m k val) k = Some (val mod 256).
Proof.
  intros Hk. unfold CPUMemory.stack_get, CPUMemory.stack_set.
  replace ((0 <=? k) && (k <? 256)) with true
    by (symmetry; apply andb_true_intro; split; lia).
  unfold CPUMemory.cell. cbn [CPUMemory.cells].
  now rewrite lookup_insert_eq.
Qed.

Lemma get_set_ne (m : CPUMemory.t) (k k' val : Z) :
  k <> k' ->
  CPUMemory.stack_get (CPUMemory.stack_set m k val) k'
  = CPUMemory.stack_get m k'.
Proof.
  intros Hne. unfold CPUMemory.stack_get, CPUMemory.stack_set.
  destruct ((0 <=? k) && (k <? 256)); [ | reflexivity ].
  destruct ((0 <=? k') && (k' <? 256)); [ | reflexivity ].
  unfold CPUMemory.cell. cbn [CPUMemory.cells].
  rewrite lookup_insert_ne by lia. reflexivity.
Qed.

(** The view is the page $0100-$01FF of the store. *)
Lemma get_read8 (m : CPUMemory.t) (k r : Z) :
  CPUMemory.stack_get m k = Some r ->
  CPUMemory.read8 m (0x0100 + k) = r.
Proof.
  unfold CPUMemory.stack_get, CPUMemory.read8.
  destruct ((0 <=? k) && (k <? 256)) eqn:Hk; [ | discriminate ].
  apply andb_prop in Hk. destruct Hk as [Hlo Hhi].
  intros [= <-]. rewrite Z.mod_small by lia. reflexivity.
Qed.

End StackFacts.

(** ** The CPU core *)

Section Core.

Context `{Peers} {bus : Bus} {tables : Tables}.

(** Decide the address comparisons of the bus dispatch. *)
Ltac bus_cases :=
  repeat match goal with
  | |- context [?p <? ?q] => destruct (Z.ltb_spec p q); try lia
  | |- context [?p <=? ?q] => destruct (Z.leb_spec p q); try lia
  | |- context [?p =? ?q] => destruct (Z.eqb_spec p q); try lia
  end.

(** *** Stalling *)

(** C1, as the code has it: for every state with a positive stall counter,
    [tick] decrements the counter by one and leaves pc, sp, a, x, y, the
    flags and the cycle count unchanged, but hands 0 (not 1) to the
    scheduler. *)
Theorem tick_stalled_returns_0 (s : CPU) :
  0 < stallCounter s ->
  exists s',
    tick s = Ok (0, s')
    /\ stallCounter s' = stallCounter s - 1
    /\ same_registers s s'.
Proof.
  intros Hstall. unfold tick. cbn.
  destruct (Z.ltb_spec 0 (stallCounter s)) as [_ | Hle]; [ | lia ].
  eexists. split; [ reflexivity | ].
  unfold same_registers. cbn. tauto.
Qed.

(** C4: one call of [stall] adds 513 to the stall counter when the cycle
    count is even and 514 when it is odd, and changes nothing else. *)
Theorem stall_adds_513_or_514 (s : CPU) :
  0 <= cycles s ->
  stall s
  = set_stallCounter
      (stallCounter s + if Z.even (cycles s) then 513 else 514) s.
Proof.
  intros Hcycles. unfold stall.
  rewrite JSFacts.rem2_count by exact Hcycles.
  rewrite <- Z.negb_even.
  now destruct (Z.even (cycles s)).
Qed.

(** *** Dropped interrupts *)

(** C10: with no stall pending and a latched interrupt other than NMI,
    [tick] clears the latch and returns 7 while pc, sp, a, x, y, the flags
    and the cycle count stay as they were, so the 7 cycles reported are
    not the cycles elapsed. *)
Theorem tick_drops_other_interrupt (s : CPU) (irq : Interrupt) :
  stallCounter s = 0 ->
  interrupt s = Some irq ->
  irq <> NMI ->
  exists s',
    tick s = Ok (7, s')
    /\ interrupt s' = None
    /\ same_registers s s'
    /\ 7 <> cycles s' - cycles s.
Proof.
  intros Hstall Hirq Hother. unfold tick. cbn.
  rewrite Hstall, Hirq. cbn.
  destruct irq; [ congruence | ].
  eexists. split; [ reflexivity | ].
  unfold same_registers. cbn. repeat split; lia.
Qed.

(** *** Reserved windows of the bus *)

(** C9: at every address of the reserved windows ($4017, $4000-$4013,
    $4018-$5FFF) [read8] returns 0 and touches at most the host console,
    and [write8] leaves the whole machine (CPU, RAM and peers) as it
    was. *)
Theorem reserved_window_inert (s : CPU) (addr val : Z) :
  reserved addr = true ->
  fst (read8 addr s) = 0
  /\ (exists out, snd (read8 addr s) = set_stdout out s)
  /\ write8 addr val s = s.
Proof.
  unfold reserved. intros Hres.
  assert (Hwin : addr = 0x4017 \/ 0x4000 <= addr <= 0x4013
                 \/ 0x4018 <= addr <= 0x5FFF) by lia.
  clear Hres. unfold read8, write8.
  repeat split.
  - bus_cases; reflexivity.
  - bus_cases.
    + exists (stdout s). now destruct s.
    + eexists. reflexivity.
  - bus_cases; reflexivity.
Qed.

(** *** The stack pointer *)

Lemma sp_stackPush8 (val : Z) (s : CPU) :
  sp (stackPush8 val s) = (sp s - 1) mod 256.
Proof. unfold stackPush8. cbn. apply JSFacts.band_0xFF. Qed.

Lemma memory_stackPush8 (val : Z) (s : CPU) :
  memory (stackPush8 val s) = CPUMemory.stack_set (memory s) (sp s) val.
Proof. reflexivity. Qed.

(** After any number of pushes the pointer has moved down by that number,
    modulo 256. *)
Lemma sp_stackPushAll (vals : list Z) :
  forall s : CPU,
    0 <= sp s <= 255 ->
    sp (stackPushAll vals s) = (sp s - Z.of_nat (length vals)) mod 256.
Proof.
  induction vals as [ | val vals IH]; intros s Hsp.
  - cbn. rewrite Z.sub_0_r, Z.mod_small by lia. reflexivity.
  - change (stackPushAll (val :: vals) s)
      with (stackPushAll vals (stackPush8 val s)).
    assert (Hnext : 0 <= sp (stackPush8 val s) <= 255).
    { rewrite sp_stackPush8.
      pose proof (Z.mod_pos_bound (sp s - 1) 256). lia. }
    rewrite (IH _ Hnext), sp_stackPush8, Zminus_mod_idemp_l.
    f_equal. cbn [length]. lia.
Qed.

(** C7, amended: 256 consecutive [stackPush8] calls bring [sp] back to
    the value it started from. *)
Theorem stack_256_pushes_restore_sp (vals : list Z) (s : CPU) :
  length vals = 256%nat ->
  0 <= sp s <= 255 ->
  sp (stackPushAll vals s) = sp s.
Proof.
  intros Hlen Hsp.
  rewrite sp_stackPushAll, Hlen by exact Hsp.
  change (Z.of_nat 256) with (1 * 256).
  rewrite <- (Z.add_opp_r (sp s)), <- Z.mul_opp_l, Z.mod_add by lia.
  apply Z.mod_small. lia.
Qed.

(** One push more leaves the pointer one below its start, modulo 256. *)
Lemma stack_257_pushes_sp (vals : list Z) (s : CPU) :
  length vals = 257%nat ->
  0 <= sp s <= 255 ->
  sp (stackPushAll vals s) = (sp s - 1) mod 256.
Proof.
  intros Hlen Hsp.
  rewrite sp_stackPushAll, Hlen by exact Hsp.
  replace (sp s - Z.of_nat 257) with (sp s - 1 + (- 1) * 256) by lia.
  now rewrite Z.mod_add by lia.
Qed.

(** *** The status byte *)

(** C6: for every byte [val], [setFlags val] followed by [getFlags] gives
    [(val & $CF) | $20] from any state: bits 0-3, 6 and 7 are those of
    [val], bit 4 (B) reads 0 and bit 5 (U) reads 1. *)
Theorem flags_round_trip (val : Z) (s : CPU) :
  0 <= val <= 255 ->
  let r := getFlags (setFlags val s) in
  r = Z.lor (Z.land val 0xCF) 0x20
  /\ Z.testbit r 4 = false
  /\ Z.testbit r 5 = true
  /\ (forall k, In k [0; 1; 2; 3; 6; 7] -> Z.testbit r k = Z.testbit val k).
Proof.
  intros Hval r.
  assert (Hr : r = Z.lor (Z.land val 0xCF) 0x20).
  { subst r. clear - Hval.
    rewrite <- (Z2Nat.id val) by lia.
    assert (Hk : (Z.to_nat val < 256)%nat) by lia.
    revert Hk. generalize (Z.to_nat val). intros k Hk.
    do 256 (destruct k as [ | k]; [ vm_compute; reflexivity | ]).
    lia. }
  rewrite Hr. repeat split.
  - rewrite Z.lor_spec, Z.land_spec. now destruct (Z.testbit val 4).
  - rewrite Z.lor_spec, Z.land_spec. now destruct (Z.testbit val 5).
  - intros k Hin. rewrite Z.lor_spec, Z.land_spec.
    cbn [In] in Hin.
    destruct Hin as [<- | [<- | [<- | [<- | [<- | [<- | []]]]]]];
      match goal with
      | |- context [Z.testbit val ?j] => now destruct (Z.testbit val j)
      end.
Qed.

(** *** Vectors *)

Lemma read8_mapper (addr : Z) (s : CPU) :
  0x6000 <= addr ->
  read8 addr s
  = let '(r, p) := mapper_read8 addr (mapper s) in (r, set_mapper p s).
Proof.
  intros Haddr. unfold read8. bus_cases. reflexivity.
Qed.

(** A 16-bit read in cartridge space: two mapper reads, high byte first,
    and nothing but the mapper changes. *)
Lemma read16_mapper (addr : Z) (s : CPU) :
  0x6000 <= addr ->
  read16 addr s
  = let '(hi, p) := mapper_read8 (addr + 1) (mapper s) in
    let '(lo, p) := mapper_read8 addr p in
    (JS.bor (JS.shl hi 8) lo, set_mapper p s).
Proof.
  intros Haddr. unfold read16.
  rewrite read8_mapper by lia.
  destruct (mapper_read8 (addr + 1) (mapper s)) as [hi p1].
  rewrite read8_mapper by lia. cbn [mapper set_mapper].
  destruct (mapper_read8 addr p1) as [lo p2]. reflexivity.
Qed.

(** C5: after [reset], [sp] is $FD, the I flag is 1, the packed flags
    byte is $24, [pc] is the word [read16] finds at $FFFC, the interrupt
    latch is clear and the stall counter is 0. *)
Theorem reset_state (s : CPU) :
  let s' := reset s in
  sp s' = 0xFD
  /\ i s' = 1
  /\ getFlags s' = 0x24
  /\ pc s' = fst (read16 0xFFFC s)
  /\ interrupt s' = None
  /\ stallCounter s' = 0.
Proof.
  unfold reset. rewrite !read16_mapper by lia. cbn [mapper set_cycles
    set_a set_x set_y set_interrupt set_stallCounter].
  destruct (mapper_read8 (0xFFFC + 1) (mapper s)) as [hi p1].
  destruct (mapper_read8 0xFFFC p1) as [lo p2].
  cbn. repeat split; reflexivity.
Qed.

(** *** Indirect reads *)

(** The second address computed by [read16indirect] is the one the
    specification writes. *)
Lemma read16indirect_addr2 (addr : Z) :
  JS.bor (JS.band addr 0xFF00) (JS.band (JS.band addr 0xFF + 1) 0xFF)
  = indirect_hi_addr addr.
Proof.
  unfold indirect_hi_addr.
  rewrite JSFacts.band_mask, !JSFacts.band_0xFF, Zplus_mod_idemp_l by lia.
  change 0xFF with (Z.ones 8). rewrite Z.land_ones by lia.
  change (2 ^ 8) with 256.
  apply JSFacts.bor_small.
  - rewrite JSFacts.land_0xFF00.
    pose proof (Z.mod_pos_bound (addr / 256) 256). lia.
  - pose proof (Z.mod_pos_bound (addr + 1) 256). lia.
Qed.

(** It keeps the page of the pointer and steps the low byte modulo 256. *)
Lemma indirect_hi_addr_split (addr : Z) :
  indirect_hi_addr addr = 256 * ((addr / 256) mod 256) + (addr + 1) mod 256.
Proof.
  unfold indirect_hi_addr.
  rewrite JSFacts.land_0xFF00.
  change 0xFF with (Z.ones 8). rewrite Z.land_ones by lia.
  change (2 ^ 8) with 256.
  rewrite Z.lor_comm, (Z.mul_comm 256), JSFacts.lor_bytes.
  - lia.
  - apply Z.mod_pos_bound. lia.
Qed.

(** C3: for every 16-bit [addr], [read16indirect] fetches the low byte
    from [addr] and the high byte from [(addr & $FF00) | ((addr + 1) & $FF)];
    when the low byte of [addr] is $FF that address is $xx00 of the page
    of [addr], not the first byte of the next page. *)
Theorem read16indirect_page_wrap (addr : Z) (s : CPU) :
  0 <= addr <= 0xFFFF ->
  read16indirect addr s = read16indirect_spec addr s
  /\ (Z.land addr 0xFF = 0xFF ->
      indirect_hi_addr addr = 256 * (addr / 256)
      /\ indirect_hi_addr addr <> addr + 1).
Proof.
  intros Haddr. split.
  - unfold read16indirect, read16indirect_spec.
    now rewrite read16indirect_addr2.
  - change 0xFF with (Z.ones 8) at 1. rewrite Z.land_ones by lia.
    change (2 ^ 8) with 256. intros Hlow.
    rewrite indirect_hi_addr_split.
    rewrite (Z.mod_small (addr / 256) 256)
      by (split; [ apply Z.div_pos | apply Z.div_lt_upper_bound ]; lia).
    replace ((addr + 1) mod 256) with 0.
    + pose proof (Z.div_mod addr 256). lia.
    + rewrite <- Zplus_mod_idemp_l, Hlow. reflexivity.
Qed.

(** *** Sixteen-bit values on the stack *)

Lemma stackPull8_eq (s : CPU) :
  stackPull8 s
  = (CPUMemory.stack_get (memory s) ((sp s + 1) mod 256),
     set_sp ((sp s + 1) mod 256) s).
Proof.
  unfold stackPull8. cbn [sp memory set_sp].
  now rewrite JSFacts.band_0xFF.
Qed.

Lemma sp_stackPush16 (val : Z) (s : CPU) :
  sp (stackPush16 val s) = (sp s - 2) mod 256.
Proof.
  unfold stackPush16. rewrite !sp_stackPush8, Zminus_mod_idemp_l.
  f_equal. lia.
Qed.

Lemma memory_stackPush16 (val : Z) (s : CPU) :
  memory (stackPush16 val s)
  = CPUMemory.stack_set
      (CPUMemory.stack_set (memory s) (sp s) (JS.sar val 8))
      ((sp s - 1) mod 256) (JS.band val 0xFF).
Proof.
  unfold stackPush16.
  now rewrite !memory_stackPush8, sp_stackPush8.
Qed.

(** The cell below [k], modulo 256, is another cell. *)
Lemma below_ne (k : Z) : 0 <= k <= 255 -> (k - 1) mod 256 <> k.
Proof.
  intros Hk. destruct (Z.eq_dec k 0) as [-> | Hpos].
  - discriminate.
  - rewrite Z.mod_small; lia.
Qed.

(** What [stackPush16] leaves in the two cells it writes. *)
Lemma stackPush16_cells (val : Z) (s : CPU) :
  0 <= sp s <= 255 ->
  0 <= val <= 0xFFFF ->
  CPUMemory.stack_get (memory (stackPush16 val s)) (sp s)
  = Some (val / 256)
  /\ CPUMemory.stack_get (memory (stackPush16 val s)) ((sp s - 1) mod 256)
     = Some (val mod 256).
Proof.
  intros Hsp Hval. rewrite memory_stackPush16.
  pose proof (Z.mod_pos_bound (sp s - 1) 256).
  split.
  - rewrite StackFacts.get_set_ne by (apply below_ne; lia).
    rewrite StackFacts.get_set_eq by lia.
    rewrite JSFacts.sar_small by lia.
    change (2 ^ 8) with 256.
    rewrite Z.mod_small; [ reflexivity | ].
    split; [ apply Z.div_pos | apply Z.div_lt_upper_bound ]; lia.
  - rewrite StackFacts.get_set_eq by lia.
    now rewrite JSFacts.band_0xFF, Z.mod_mod by lia.
Qed.

(** C8, amended: for every 16-bit [val] and every state with an 8-bit
    [sp], [stackPush16 val] followed by [stackPull16] returns [val] and
    restores [sp]; the high byte lies under the original [sp] and the low
    byte under [(sp - 1) & $FF], which is the next lower address whenever
    [sp] is not 0. *)
Theorem stack16_round_trip (val : Z) (s : CPU) :
  0 <= sp s <= 255 ->
  0 <= val <= 0xFFFF ->
  let s1 := stackPush16 val s in
  fst (stackPull16 s1) = val
  /\ sp (snd (stackPull16 s1)) = sp s
  /\ CPUMemory.read8 (memory s1) (push16_hi_addr s) = val / 256
  /\ CPUMemory.read8 (memory s1) (push16_lo_addr val s) = val mod 256
  /\ push16_lo_addr val s = stackAddr ((sp s - 1) mod 256)
  /\ (1 <= sp s -> push16_lo_addr val s = push16_hi_addr s - 1).
Proof.
  intros Hsp Hval s1.
  destruct (stackPush16_cells val s Hsp Hval) as [Hhi Hlo].
  fold s1 in Hhi, Hlo.
  assert (Hsp1 : (sp s1 + 1) mod 256 = (sp s - 1) mod 256).
  { subst s1. rewrite sp_stackPush16, Zplus_mod_idemp_l. f_equal. lia. }
  assert (Hsp2 : ((sp s - 1) mod 256 + 1) mod 256 = sp s).
  { rewrite Zplus_mod_idemp_l.
    replace (sp s - 1 + 1) with (sp s) by lia.
    apply Z.mod_small. lia. }
  assert (Hpull : stackPull16 s1 = (val, set_sp (sp s) s1)).
  { unfold stackPull16. rewrite stackPull8_eq, Hsp1, Hlo.
    rewrite stackPull8_eq. cbn [sp memory set_sp]. rewrite Hsp2, Hhi.
    cbn [JS.ofValue]. f_equal.
    assert (0 <= val / 256 < 256)
      by (split; [ apply Z.div_pos | apply Z.div_lt_upper_bound ]; lia).
    pose proof (Z.mod_pos_bound val 256).
    rewrite (JSFacts.shl_small (val / 256) 8) by (change (2 ^ 8) with 256; lia).
    change (2 ^ 8) with 256.
    rewrite JSFacts.bor_small, JSFacts.lor_bytes by lia.
    pose proof (Z.div_mod val 256). lia. }
  rewrite Hpull. cbn [fst snd sp set_sp].
  unfold push16_hi_addr, push16_lo_addr, stackAddr.
  rewrite sp_stackPush8.
  repeat split.
  - now apply StackFacts.get_read8.
  - now apply StackFacts.get_read8.
  - intros Hpos. rewrite Z.mod_small; lia.
Qed.

(** *** Servicing the NMI *)

(** With flags that are bits, [getFlags] is the sum of their weights and
    of the constant U bit; bit 4 is clear already. *)
Lemma getFlags_bits (s : CPU) :
  flags_are_bits s ->
  getFlags s = packFlags (c s) (z s) (i s) (d s) (v s) (n s)
  /\ JS.band (getFlags s) (JS.bnot 0x10) = getFlags s
  /\ 0 <= getFlags s <= 255
  /\ Z.testbit (getFlags s) 4 = false
  /\ Z.testbit (getFlags s) 5 = true.
Proof.
  unfold flags_are_bits, bit, getFlags, packFlags.
  intros (Hc & Hz & Hi & Hd & Hv & Hn).
  destruct Hc as [-> | ->], Hz as [-> | ->], Hi as [-> | ->],
    Hd as [-> | ->], Hv as [-> | ->], Hn as [-> | ->];
    vm_compute; intuition congruence.
Qed.

(** Pushing changes no flag. *)
Lemma getFlags_stackPush8 (val : Z) (s : CPU) :
  getFlags (stackPush8 val s) = getFlags s.
Proof.
  unfold getFlags, stackPush8.
  cbn [c z i d v n set_sp set_memory]. reflexivity.
Qed.

Lemma getFlags_stackPush16 (val : Z) (s : CPU) :
  getFlags (stackPush16 val s) = getFlags s.
Proof. unfold stackPush16. now rewrite !getFlags_stackPush8. Qed.

Lemma getFlags_set_b (val : Z) (s : CPU) :
  getFlags (set_b val s) = getFlags s.
Proof. unfold getFlags. cbn [c z i d v n set_b]. reflexivity. Qed.

(** The second cell below [k], modulo 256, differs from [k] and from the
    cell just below it. *)
Lemma below2_ne (k : Z) :
  0 <= k <= 255 ->
  (k - 2) mod 256 <> k /\ (k - 2) mod 256 <> (k - 1) mod 256.
Proof.
  intros Hk.
  destruct (Z.eq_dec k 0) as [-> | H0]; [ split; discriminate | ].
  destruct (Z.eq_dec k 1) as [-> | H1]; [ split; discriminate | ].
  rewrite !Z.mod_small by lia. lia.
Qed.

(** The assignments that end the NMI service, read field by field. *)
Lemma nmi_service_fields (vec : Z) (p : Mapper) (s : CPU) :
  let s' :=
    set_interrupt None
      (set_cycles (cycles (set_i 1 (set_pc vec (set_mapper p s))) + 7)
         (set_i 1 (set_pc vec (set_mapper p s)))) in
  memory s' = memory s
  /\ sp s' = sp s
  /\ i s' = 1
  /\ pc s' = vec
  /\ cycles s' = cycles s + 7
  /\ interrupt s' = None.
Proof. destruct s. cbn. repeat split; reflexivity. Qed.

(** C2: with no stall pending and NMI latched, [tick] pushes [pc] high
    byte first, then the packed flags with B clear and U set, sets I,
    loads [pc] from the word at $FFFA, adds 7 to the cycle count, clears
    the latch and returns 7. *)
Theorem tick_services_nmi (s : CPU) :
  stallCounter s = 0 ->
  interrupt s = Some NMI ->
  0 <= sp s <= 255 ->
  0 <= pc s <= 0xFFFF ->
  flags_are_bits s ->
  exists s',
    tick s = Ok (7, s')
    /\ CPUMemory.stack_get (memory s') (sp s) = Some (pc s / 256)
    /\ CPUMemory.stack_get (memory s') ((sp s - 1) mod 256)
       = Some (pc s mod 256)
    /\ CPUMemory.stack_get (memory s') ((sp s - 2) mod 256)
       = Some (getFlags s)
    /\ getFlags s = packFlags (c s) (z s) (i s) (d s) (v s) (n s)
    /\ Z.testbit (getFlags s) 4 = false
    /\ Z.testbit (getFlags s) 5 = true
    /\ sp s' = (sp s - 3) mod 256
    /\ i s' = 1
    /\ pc s' = fst (read16 0xFFFA s)
    /\ cycles s' = cycles s + 7
    /\ interrupt s' = None.
Proof.
  intros Hstall Hirq Hsp Hpc Hflags.
  destruct (getFlags_bits s Hflags) as (Hpack & Hmask & Hbyte & Hb4 & Hb5).
  unfold tick. cbn [stallCounter interrupt set_b].
  rewrite Hstall, Hirq. cbn [Z.ltb Z.compare].
  change (pc (set_b 0 s)) with (pc s).
  rewrite getFlags_stackPush16, getFlags_set_b, Hmask.
  set (s1 := stackPush16 (pc s) (set_b 0 s)).
  set (s2 := stackPush8 (getFlags s) s1).
  rewrite !read16_mapper by lia.
  change (mapper s2) with (mapper s).
  destruct (mapper_read8 (0xFFFA + 1) (mapper s)) as [hi p1].
  destruct (mapper_read8 0xFFFA p1) as [lo p2].
  eexists. split; [ reflexivity | ].
  destruct (nmi_service_fields (JS.bor (JS.shl hi 8) lo) p2 s2)
    as (-> & -> & -> & -> & -> & ->).
  cbn [fst].
  assert (Hsp1 : sp s1 = (sp s - 2) mod 256)
    by (subst s1; rewrite sp_stackPush16; reflexivity).
  assert (Hsp2 : sp s2 = (sp s - 3) mod 256).
  { subst s2. rewrite sp_stackPush8, Hsp1, Zminus_mod_idemp_l.
    f_equal. lia. }
  assert (Hmem2 : memory s2
                  = CPUMemory.stack_set (memory s1) (sp s1) (getFlags s))
    by reflexivity.
  assert (Hsp0 : 0 <= sp (set_b 0 s) <= 255) by exact Hsp.
  destruct (stackPush16_cells (pc s) (set_b 0 s) Hsp0 Hpc) as [Hhi Hlo].
  fold s1 in Hhi, Hlo. change (sp (set_b 0 s)) with (sp s) in Hhi, Hlo.
  destruct (below2_ne (sp s) Hsp) as [Hne0 Hne1].
  pose proof (Z.mod_pos_bound (sp s - 2) 256).
  rewrite Hmem2, Hsp1, Hsp2.
  rewrite !StackFacts.get_set_ne by assumption.
  rewrite StackFacts.get_set_eq, (Z.mod_small (getFlags s)) by lia.
  change (cycles s2) with (cycles s).
  repeat split; assumption || reflexivity.
Qed.

End Core.

(** ** Further properties of the core *)

Section More.

Context `{Peers} {bus : Bus} {tables : Tables}.

(** Decide the address comparisons of a bus access. *)
Ltac bus_dispatch :=
  repeat match goal with
  | |- context [?p <? ?q] => destruct (Z.ltb_spec p q); try lia
  | |- context [?p <=? ?q] => destruct (Z.leb_spec p q); try lia
  | |- context [?p =? ?q] => destruct (Z.eqb_spec p q); try lia
  end.

(** Every byte, by cases: [tac] has to close the goal at each of them. *)
Ltac each_byte val tac :=
  let k := fresh "k" in
  let Hk := fresh "Hk" in
  rewrite <- (Z2Nat.id val) by lia;
  assert (Hk : (Z.to_nat val < 256)%nat) by lia;
  revert Hk; generalize (Z.to_nat val); intros k Hk;
  do 256 (destruct k as [ | k]; [ tac | ]);
  lia.

(** *** Bytes on the stack *)


Lemma stack_untouched_push8 (val : Z) (s : CPU) :
  forget_stack (stackPush8 val s) = forget_stack s.
Proof. destruct s. reflexivity. Qed.



(** X2: whatever [sp] held before, after a push or a pull of either size
    it is a byte. *)
Theorem stack_pointer_stays_byte (val : Z) (s : CPU) :
  0 <= sp (stackPush8 val s) <= 255
  /\ 0 <= sp (stackPush16 val s) <= 255
  /\ 0 <= sp (snd (stackPull8 s)) <= 255
  /\ 0 <= sp (snd (stackPull16 s)) <= 255.
Proof.
  assert (Hpull : forall s0 : CPU, 0 <= sp (snd (stackPull8 s0)) <= 255).
  { intros s0. rewrite stackPull8_eq. cbn [snd sp set_sp].
    pose proof (Z.mod_pos_bound (sp s0 + 1) 256). lia. }
  split; [ | split; [ | split ]].
  - rewrite sp_stackPush8.
    pose proof (Z.mod_pos_bound (sp s - 1) 256). lia.
  - rewrite sp_stackPush16.
    pose proof (Z.mod_pos_bound (sp s - 2) 256). lia.
  - apply Hpull.
  - unfold stackPull16.
    destruct (stackPull8 s) as [lo s1] eqn:E1.
    destruct (stackPull8 s1) as [hi s2] eqn:E2.
    cbn [snd]. change s2 with (snd (hi, s2)). rewrite <- E2. apply Hpull.
Qed.

Lemma stack_set_outside (m : CPUMemory.t) (k val addr : Z) :
  addr mod 2048 < 0x0100 \/ 0x01FF < addr mod 2048 ->
  CPUMemory.read8 (CPUMemory.stack_set m k val) addr = CPUMemory.read8 m addr.
Proof.
  intros Hout. unfold CPUMemory.stack_set, CPUMemory.read8.
  destruct ((0 <=? k) && (k <? 256)) eqn:Hk; [ | reflexivity ].
  apply andb_prop in Hk. destruct Hk as [Hlo Hhi].
  unfold CPUMemory.cell. cbn [CPUMemory.cells].
  rewrite lookup_insert_ne by lia. reflexivity.
Qed.

(** X3: a push of either size never writes outside the stack page: every
    RAM address that does not fall in $0100-$01FF reads as before,
    whatever [sp] holds, and nothing but [sp] and the RAM changes. *)
Theorem stack_writes_stay_in_page (val : Z) (s : CPU) (addr : Z) :
  addr mod 2048 < 0x0100 \/ 0x01FF < addr mod 2048 ->
  CPUMemory.read8 (memory (stackPush8 val s)) addr
  = CPUMemory.read8 (memory s) addr
  /\ CPUMemory.read8 (memory (stackPush16 val s)) addr
     = CPUMemory.read8 (memory s) addr
  /\ forget_stack (stackPush8 val s) = forget_stack s
  /\ forget_stack (stackPush16 val s) = forget_stack s.
Proof.
  intros Hout. split; [ | split; [ | split ]].
  - rewrite memory_stackPush8. now apply stack_set_outside.
  - rewrite memory_stackPush16. now rewrite !stack_set_outside.
  - apply stack_untouched_push8.
  - unfold stackPush16. now rewrite !stack_untouched_push8.
Qed.

(** *** Flags *)

(** A flag extracted by [(val >> k) & 1] is bit [k] of [val], for every
    integer [val]. *)
Lemma flag_of_bit (val k : Z) :
  0 <= k < 32 -> JS.band (JS.sar val k) 1 = Z.b2z (Z.testbit val k).
Proof.
  intros Hk. rewrite JSFacts.band_mask by lia.
  change 1 with (Z.ones 1). rewrite Z.land_ones by lia.
  change (2 ^ 1) with 2. rewrite <- Z.bit0_mod.
  unfold JS.sar. rewrite (Z.mod_small k 32) by lia.
  rewrite Z.shiftr_spec by lia.
  now rewrite JSFacts.ToInt32_testbit by lia.
Qed.

Lemma bit_b2z (t : bool) : bit (Z.b2z t).
Proof. destruct t; [ right | left ]; reflexivity. Qed.

Lemma flags_untouched_setFlags (val : Z) (s : CPU) :
  forget_flags (setFlags val s) = forget_flags s.
Proof. destruct s. reflexivity. Qed.

(** X4: for every integer [val], [setFlags val] stores bits 0, 1, 2, 3, 6
    and 7 of [val] in C, Z, I, D, V and N, so each flag is 0 or 1
    afterwards, and no other field changes. *)
Theorem setFlags_stores_bits (val : Z) (s : CPU) :
  let s' := setFlags val s in
  c s' = Z.b2z (Z.testbit val 0)
  /\ z s' = Z.b2z (Z.testbit val 1)
  /\ i s' = Z.b2z (Z.testbit val 2)
  /\ d s' = Z.b2z (Z.testbit val 3)
  /\ v s' = Z.b2z (Z.testbit val 6)
  /\ n s' = Z.b2z (Z.testbit val 7)
  /\ flags_are_bits s'
  /\ forget_flags s' = forget_flags s.
Proof.
  intros s'.
  assert (Hc : c s' = Z.b2z (Z.testbit val 0)) by (apply flag_of_bit; lia).
  assert (Hz : z s' = Z.b2z (Z.testbit val 1)) by (apply flag_of_bit; lia).
  assert (Hi : i s' = Z.b2z (Z.testbit val 2)) by (apply flag_of_bit; lia).
  assert (Hd : d s' = Z.b2z (Z.testbit val 3)) by (apply flag_of_bit; lia).
  assert (Hv : v s' = Z.b2z (Z.testbit val 6)) by (apply flag_of_bit; lia).
  assert (Hn : n s' = Z.b2z (Z.testbit val 7)) by (apply flag_of_bit; lia).
  do 6 (split; [ assumption | ]). split.
  - unfold flags_are_bits. rewrite Hc, Hz, Hi, Hd, Hv, Hn.
    do 5 (split; [ apply bit_b2z | ]). apply bit_b2z.
  - apply flags_untouched_setFlags.
Qed.

(** X5: [setFlags] does not look at bits 4 (B) and 5 (U) of its argument:
    setting or clearing them gives the same state. *)
Theorem setFlags_ignores_B_and_U (val : Z) (s : CPU) :
  setFlags (Z.lor val 0x30) s = setFlags val s
  /\ setFlags (Z.land val 0xCF) s = setFlags val s.
Proof.
  unfold setFlags. rewrite !flag_of_bit by lia.
  rewrite !Z.lor_spec, !Z.land_spec.
  change (Z.testbit 0x30 0) with false. change (Z.testbit 0x30 1) with false.
  change (Z.testbit 0x30 2) with false. change (Z.testbit 0x30 3) with false.
  change (Z.testbit 0x30 6) with false. change (Z.testbit 0x30 7) with false.
  change (Z.testbit 0xCF 0) with true. change (Z.testbit 0xCF 1) with true.
  change (Z.testbit 0xCF 2) with true. change (Z.testbit 0xCF 3) with true.
  change (Z.testbit 0xCF 6) with true. change (Z.testbit 0xCF 7) with true.
  rewrite !orb_false_r, !andb_true_r. split; reflexivity.
Qed.

(** X6: when the flags are bits, [getFlags] loses nothing: writing its
    result back with [setFlags] gives the state it was read from. *)
Theorem setFlags_getFlags (s : CPU) :
  flags_are_bits s -> setFlags (getFlags s) s = s.
Proof.
  destruct s. unfold flags_are_bits, bit. cbn [c z i d v n].
  intros (Hc & Hz & Hi & Hd & Hv & Hn).
  destruct Hc as [-> | ->], Hz as [-> | ->], Hi as [-> | ->],
    Hd as [-> | ->], Hv as [-> | ->], Hn as [-> | ->];
    vm_compute; reflexivity.
Qed.

(** X7: for a byte [val], [setZeroFlag val] sets Z exactly when [val] is 0
    and [setNegativeFlag val] sets N exactly when [val] is 128 or more, so
    the two are never both set for the same byte; no other field
    changes. *)
Theorem zero_and_negative_flags (val : Z) (s : CPU) :
  0 <= val <= 255 ->
  let s' := setNegativeFlag val (setZeroFlag val s) in
  z s' = (if val =? 0 then 1 else 0)
  /\ n s' = (if 128 <=? val then 1 else 0)
  /\ ~ (z s' = 1 /\ n s' = 1)
  /\ set_z 0 (set_n 0 s') = set_z 0 (set_n 0 s).
Proof.
  intros Hval s'.
  assert (Hz : z s' = (if val =? 0 then 1 else 0)).
  { subst s'. clear. unfold setNegativeFlag, setZeroFlag.
    destruct (negb (JS.band val 128 =? 0)), (val =? 0); reflexivity. }
  assert (Hn : n s' = (if 128 <=? val then 1 else 0)).
  { subst s'. clear - Hval. unfold setNegativeFlag.
    assert (Hbit : negb (JS.band val 0x80 =? 0) = (128 <=? val)).
    { each_byte val ltac:(vm_compute; reflexivity). }
    rewrite Hbit. destruct (128 <=? val); reflexivity. }
  split; [ | split; [ | split ]].
  - exact Hz.
  - exact Hn.
  - rewrite Hz, Hn. intros [Hz1 Hn1].
    destruct (Z.eqb_spec val 0) as [-> | Hne]; [ discriminate | discriminate ].
  - subst s'. clear. unfold setNegativeFlag, setZeroFlag.
    destruct s.
    destruct (negb (JS.band val 128 =? 0)), (val =? 0); reflexivity.
Qed.

(** *** The bus *)

Lemma rem8_address (addr : Z) : 0 <= addr -> JS.rem addr 8 = addr mod 8.
Proof. intros Haddr. unfold JS.rem. apply Z.rem_mod_nonneg; lia. Qed.

Lemma ppu_base_mod8 (addr : Z) : (0x2000 + addr mod 8) mod 8 = addr mod 8.
Proof.
  rewrite Z.add_comm. change 0x2000 with (1024 * 8).
  rewrite Z.mod_add by lia. apply Z.mod_mod. lia.
Qed.

(** X8: the eight PPU registers are mirrored through $2000-$3FFF: an
    access at [addr] in that range is the access at $2000 + [addr] mod 8,
    for reads and for writes. *)
Theorem ppu_registers_mirrored (addr val : Z) (s : CPU) :
  0x2000 <= addr < 0x4000 ->
  read8 addr s = ppu_read8 (0x2000 + addr mod 8) s
  /\ read8 addr s = read8 (0x2000 + addr mod 8) s
  /\ write8 addr val s = ppu_write8 (0x2000 + addr mod 8) val s
  /\ write8 addr val s = write8 (0x2000 + addr mod 8) val s.
Proof.
  intros Haddr.
  pose proof (Z.mod_pos_bound addr 8).
  assert (Hr : read8 addr s = ppu_read8 (0x2000 + addr mod 8) s).
  { unfold read8. bus_dispatch. now rewrite rem8_address by lia. }
  assert (Hw : write8 addr val s = ppu_write8 (0x2000 + addr mod 8) val s).
  { unfold write8. bus_dispatch. now rewrite rem8_address by lia. }
  split; [ exact Hr | split; [ | split; [ exact Hw | ]]].
  - rewrite Hr. unfold read8. bus_dispatch.
    now rewrite rem8_address, ppu_base_mod8 by lia.
  - rewrite Hw. unfold write8. bus_dispatch.
    now rewrite rem8_address, ppu_base_mod8 by lia.
Qed.

(** Name the peer's answer in a bus read. *)
Ltac name_peer_answer :=
  repeat match goal with
  | |- context [apu_read8 ?p] => destruct (apu_read8 p)
  | |- context [controller_read8 ?p] => destruct (controller_read8 p)
  | |- context [mapper_read8 ?k ?p] => destruct (mapper_read8 k p)
  end.

(** X9: outside the PPU's windows ($2000-$3FFF and $4014) a bus access
    never changes a CPU field: a read leaves the registers, flags,
    counters, latch and the RAM as they were, a write leaves the CPU
    fields as they were and touches the RAM only below $2000. *)
Theorem bus_outside_ppu_keeps_cpu (addr val : Z) (s : CPU) :
  ppu_window addr = false ->
  registers (snd (read8 addr s)) = registers s
  /\ memory (snd (read8 addr s)) = memory s
  /\ registers (write8 addr val s) = registers s
  /\ (0x2000 <= addr -> memory (write8 addr val s) = memory s).
Proof.
  unfold ppu_window. intros Hwin.
  assert (Hout : (addr < 0x2000 \/ 0x4000 <= addr) /\ addr <> 0x4014) by lia.
  clear Hwin. destruct s.
  split; [ | split; [ | split ]].
  - unfold read8. bus_dispatch; cbn [apu controller mapper];
      name_peer_answer; reflexivity.
  - unfold read8. bus_dispatch; cbn [apu controller mapper];
      name_peer_answer; reflexivity.
  - unfold write8. bus_dispatch; reflexivity.
  - intros Hhigh. unfold write8. bus_dispatch; reflexivity.
Qed.

(** *** Words *)

(** Two bytes combined by [(hi << 8) | lo]. *)
Lemma word_of_bytes (hi lo : Z) :
  0 <= hi <= 255 -> 0 <= lo <= 255 ->
  JS.bor (JS.shl hi 8) lo = 256 * hi + lo.
Proof.
  intros Hhi Hlo.
  rewrite JSFacts.shl_small by (change (2 ^ 8) with 256; lia).
  change (2 ^ 8) with 256.
  rewrite JSFacts.bor_small, Z.lor_comm, JSFacts.lor_bytes by lia.
  lia.
Qed.

Lemma mapper_only_registers (p : Mapper) (s : CPU) :
  registers (set_mapper p s) = registers s
  /\ memory (set_mapper p s) = memory s.
Proof. destruct s. split; reflexivity. Qed.

(** The word [read16] finds in cartridge space. *)
Lemma read16_cartridge_value (addr : Z) (s : CPU) :
  0x6000 <= addr ->
  vector_is_bytes addr s ->
  fst (read16 addr s) = vector_word addr s
  /\ 0 <= vector_word addr s <= 0xFFFF.
Proof.
  unfold vector_is_bytes, vector_word. intros Haddr.
  rewrite read16_mapper by exact Haddr.
  destruct (mapper_read8 (addr + 1) (mapper s)) as [hi p1].
  destruct (mapper_read8 addr p1) as [lo p2].
  intros [Hhi Hlo]. cbn [fst].
  rewrite word_of_bytes by assumption. lia.
Qed.

(** X10: in cartridge space, when the mapper answers with bytes, [read16]
    returns 256 * high + low, a 16-bit word, having read the high byte at
    [addr + 1] first; it changes no CPU field and no RAM. *)
Theorem read16_cartridge_word (addr : Z) (s : CPU) :
  0x6000 <= addr ->
  vector_is_bytes addr s ->
  fst (read16 addr s) = vector_word addr s
  /\ 0 <= fst (read16 addr s) <= 0xFFFF
  /\ registers (snd (read16 addr s)) = registers s
  /\ memory (snd (read16 addr s)) = memory s.
Proof.
  unfold vector_is_bytes, vector_word. intros Haddr.
  rewrite read16_mapper by exact Haddr.
  destruct (mapper_read8 (addr + 1) (mapper s)) as [hi p1].
  destruct (mapper_read8 addr p1) as [lo p2].
  intros [Hhi Hlo]. cbn [fst snd].
  rewrite word_of_bytes by assumption.
  split; [ reflexivity | split; [ lia | apply mapper_only_registers ]].
Qed.

(** The pointer's successor, when the low byte is not $FF. *)
Lemma indirect_hi_addr_next (addr : Z) :
  0 <= addr <= 0xFFFF ->
  Z.land addr 0xFF <> 0xFF ->
  indirect_hi_addr addr = addr + 1.
Proof.
  intros Haddr. change 0xFF with (Z.ones 8) at 1.
  rewrite Z.land_ones by lia. change (2 ^ 8) with 256. intros Hlow.
  rewrite indirect_hi_addr_split.
  pose proof (Z.mod_pos_bound addr 256).
  pose proof (Z.div_mod addr 256).
  rewrite (Z.mod_small (addr / 256) 256)
    by (split; [ apply Z.div_pos | apply Z.div_lt_upper_bound ]; lia).
  replace (addr + 1) with ((addr mod 256 + 1) + (addr / 256) * 256) by lia.
  rewrite Z.mod_add, Z.mod_small by lia. lia.
Qed.

(** X12: in RAM, away from the end of a page, the indirect read is the
    plain one: for a pointer below $1FFF whose low byte is not $FF,
    [read16indirect] and [read16] return the same word and state. *)
Theorem read16indirect_in_ram (addr : Z) (s : CPU) :
  0 <= addr ->
  addr + 1 < 0x2000 ->
  Z.land addr 0xFF <> 0xFF ->
  read16indirect addr s = read16 addr s.
Proof.
  intros Hlo Hhi Hlow. unfold read16indirect, read16.
  rewrite read16indirect_addr2, indirect_hi_addr_next by (assumption || lia).
  unfold read8. bus_dispatch. reflexivity.
Qed.

(** *** Reset *)

Lemma reset_fields (vec : Z) (p : Mapper) (s : CPU) :
  let s' :=
    setFlags 0x24
      (set_sp 0xFD
         (set_pc vec
            (set_mapper p
               (set_stallCounter 0
                  (set_interrupt None
                     (set_y 0 (set_x 0 (set_a 0 (set_cycles 0 s))))))))) in
  registers s' = (vec, 0xFD, (0, 0, 0), (0, 0, 1, 0, 0, 0), (0, b s), None, 0)
  /\ memory s' = memory s
  /\ (0 <= vec <= 0xFFFF -> well_formed s').
Proof.
  destruct s. split; [ reflexivity | split; [ reflexivity | ]].
  intros Hvec. unfold well_formed, flags_are_bits, bit.
  cbn [pc sp a x y c z i d v n cycles stallCounter setFlags set_sp set_pc
       set_mapper set_stallCounter set_interrupt set_y set_x set_a
       set_cycles set_c set_z set_i set_d set_v set_n].
  change (JS.band (JS.sar 36 0) 1) with 0.
  change (JS.band (JS.sar 36 1) 1) with 0.
  change (JS.band (JS.sar 36 2) 1) with 1.
  change (JS.band (JS.sar 36 3) 1) with 0.
  change (JS.band (JS.sar 36 6) 1) with 0.
  change (JS.band (JS.sar 36 7) 1) with 0.
  lia.
Qed.

(** X11: when the cartridge answers the reset vector with bytes, [reset]
    leaves a state of the data model's widths: [pc] is the word at $FFFC,
    [sp] is $FD, [a], [x], [y] and the cycle count are 0, only I is set,
    nothing is latched or stalled; the RAM is not touched. *)
Theorem reset_well_formed (s : CPU) :
  vector_is_bytes 0xFFFC s ->
  registers (reset s)
  = (vector_word 0xFFFC s, 0xFD, (0, 0, 0), (0, 0, 1, 0, 0, 0), (0, b s),
     None, 0)
  /\ memory (reset s) = memory s
  /\ well_formed (reset s).
Proof.
  intros Hbytes.
  destruct (read16_cartridge_value 0xFFFC s ltac:(lia) Hbytes)
    as (Hword & Hrange).
  assert (Hreset : exists p,
             reset s
             = setFlags 0x24
                 (set_sp 0xFD
                    (set_pc (vector_word 0xFFFC s)
                       (set_mapper p
                          (set_stallCounter 0
                             (set_interrupt None
                                (set_y 0
                                   (set_x 0 (set_a 0 (set_cycles 0 s)))))))))).
  { rewrite <- Hword. unfold reset.
    rewrite !read16_mapper by lia.
    cbn [mapper set_cycles set_a set_x set_y set_interrupt set_stallCounter].
    destruct (mapper_read8 (0xFFFC + 1) (mapper s)) as [hi p1].
    destruct (mapper_read8 0xFFFC p1) as [lo p2].
    exists p2. reflexivity. }
  destruct Hreset as [p ->].
  destruct (reset_fields (vector_word 0xFFFC s) p s) as (Hregs & Hmem & Hwf).
  split; [ exact Hregs | split; [ exact Hmem | ]].
  apply Hwf. exact Hrange.
Qed.

(** *** Steps *)

Lemma tick_stalled_eq (s : CPU) :
  0 < stallCounter s ->
  tick s = Ok (0, set_stallCounter (stallCounter s - 1) (set_b 0 s)).
Proof.
  intros Hstall. unfold tick. cbn [stallCounter set_b].
  destruct (Z.ltb_spec 0 (stallCounter s)) as [_ | Hle]; [ | lia ].
  reflexivity.
Qed.

Lemma not_stalled (s : CPU) :
  stallCounter s <= 0 -> (0 <? stallCounter s) = false.
Proof. intros Hle. apply Z.ltb_ge. exact Hle. Qed.

(** The state the NMI service ends in, with the vector read from the
    state it starts from. *)
Lemma tick_nmi_eq (s : CPU) :
  stallCounter s <= 0 ->
  interrupt s = Some NMI ->
  let vec := fst (read16 0xFFFA s) in
  let s2 :=
    stackPush8 (JS.band (getFlags s) (JS.bnot 0x10))
      (stackPush16 (pc s) (set_b 0 s)) in
  exists p,
    tick s
    = Ok (7,
          set_interrupt None
            (set_cycles (cycles (set_i 1 (set_pc vec (set_mapper p s2))) + 7)
               (set_i 1 (set_pc vec (set_mapper p s2))))).
Proof.
  intros Hstall Hirq vec s2. subst vec.
  unfold tick. cbn [stallCounter interrupt set_b].
  rewrite (not_stalled s Hstall), Hirq.
  change (pc (set_b 0 s)) with (pc s).
  rewrite getFlags_stackPush16, getFlags_set_b.
  fold s2.
  rewrite !read16_mapper by lia.
  change (mapper s2) with (mapper s).
  destruct (mapper_read8 (0xFFFA + 1) (mapper s)) as [hi p1].
  destruct (mapper_read8 0xFFFA p1) as [lo p2].
  exists p2. reflexivity.
Qed.

Lemma cycles_stalled_step (k : Z) (s : CPU) :
  cycles (set_stallCounter k (set_b 0 s)) = cycles s.
Proof. reflexivity. Qed.

(** X13: whenever [tick] returns and did not drop a latched interrupt
    other than NMI, the count it returns is the increase of [cycles]: 0
    while stalled, 7 for an NMI, and the instruction's cycles
    otherwise. *)
Theorem tick_reports_elapsed_cycles (s s' : CPU) (k : Z) :
  tick s = Ok (k, s') ->
  0 < stallCounter s \/ interrupt s = None \/ interrupt s = Some NMI ->
  k = cycles s' - cycles s.
Proof.
  intros Htick Hpath.
  destruct (Z_lt_le_dec 0 (stallCounter s)) as [Hstall | Hidle].
  - rewrite tick_stalled_eq in Htick by exact Hstall.
    injection Htick as <- <-. rewrite cycles_stalled_step. lia.
  - destruct Hpath as [Hstall | [Hnone | Hnmi]]; [ lia | | ].
    + revert Htick. unfold tick. cbn [stallCounter interrupt set_b].
      rewrite (not_stalled s Hidle), Hnone.
      destruct (read8 (pc (set_b 0 s)) (set_b 0 s)) as [code s1].
      destruct (instructions code) as [[[op mode] size] cyc].
      destruct (modes mode s1) as [[addr s2] | err]; [ | discriminate ].
      destruct (opcodes op addr _) as [s3 | err]; [ | discriminate ].
      intros [= <- <-]. reflexivity.
    + destruct (tick_nmi_eq s Hidle Hnmi) as [p Heq].
      rewrite Heq in Htick. injection Htick as <- <-.
      cbn [cycles set_interrupt set_cycles]. lia.
Qed.

Lemma run_S (k : nat) (s : CPU) :
  run (S k) s
  = match tick s with
    | Throw err => Throw err
    | Ok (r, s1) =>
        match run k s1 with
        | Throw err => Throw err
        | Ok (rs, s2) => Ok (r :: rs, s2)
        end
    end.
Proof. reflexivity. Qed.

Lemma stalled_step_absorbed (k : Z) (s : CPU) :
  set_stallCounter 0 (set_b 0 (set_stallCounter k (set_b 0 s)))
  = set_stallCounter 0 (set_b 0 s).
Proof. reflexivity. Qed.

(** A stalled machine counts down: one [tick] per pending cycle. *)
Lemma run_countdown (k : nat) :
  forall s : CPU,
    stallCounter s = Z.of_nat (S k) ->
    run (S k) s = Ok (repeat 0 (S k), set_stallCounter 0 (set_b 0 s)).
Proof.
  induction k as [ | k IH]; intros s Hstall.
  - rewrite run_S, tick_stalled_eq by lia.
    rewrite Hstall. reflexivity.
  - rewrite run_S, tick_stalled_eq by lia.
    rewrite IH by (cbn [stallCounter set_stallCounter set_b]; lia).
    now rewrite stalled_step_absorbed.
Qed.

(** X14: a machine whose stall counter is [k] > 0 spends exactly [k]
    calls of [tick] counting down: each returns 0, and at the end the
    counter is 0 and nothing else but [b] (reset to 0) has changed: an
    interrupt latched meanwhile is still latched, no instruction has
    run. *)
Theorem run_stalled (k : nat) (s : CPU) :
  (0 < k)%nat ->
  stallCounter s = Z.of_nat k ->
  run k s = Ok (repeat 0 k, set_stallCounter 0 (set_b 0 s)).
Proof.
  intros Hpos Hstall. destruct k as [ | k]; [ lia | ].
  now apply run_countdown.
Qed.

(** X15: after [stall] on a machine that was not stalled, the next 513
    calls of [tick] (514 when the cycle count is odd) all return 0 and
    bring the machine back to where it was, [b] apart. *)
Theorem dma_stall_run (s : CPU) :
  stallCounter s = 0 ->
  0 <= cycles s ->
  let k := if Z.even (cycles s) then 513%nat else 514%nat in
  run k (stall s) = Ok (repeat 0 k, set_stallCounter 0 (set_b 0 s)).
Proof.
  intros Hidle Hcycles k.
  assert (Hstall : stall s = set_stallCounter (Z.of_nat k) s).
  { unfold stall. rewrite JSFacts.rem2_count by exact Hcycles.
    rewrite <- Z.negb_even, Hidle. subst k.
    destruct (Z.even (cycles s)); reflexivity. }
  rewrite Hstall.
  assert (Hk : exists k', k = S k')
    by (subst k; destruct (Z.even (cycles s)); eexists; reflexivity).
  destruct Hk as [k' ->].
  rewrite run_countdown by reflexivity.
  reflexivity.
Qed.

(** *** Returning from the NMI service *)

Lemma up_from (k j : Z) : ((k - j) mod 256 + 1) mod 256 = (k - (j - 1)) mod 256.
Proof. rewrite Zplus_mod_idemp_l. f_equal. lia. Qed.

(** A frame of a word and a byte under [k] is read back by a [stackPull8]
    and a [stackPull16]. *)
Lemma frame_read_back (s : CPU) (k fl wd : Z) :
  0 <= k <= 255 ->
  0 <= wd <= 0xFFFF ->
  sp s = (k - 3) mod 256 ->
  CPUMemory.stack_get (memory s) k = Some (wd / 256) ->
  CPUMemory.stack_get (memory s) ((k - 1) mod 256) = Some (wd mod 256) ->
  CPUMemory.stack_get (memory s) ((k - 2) mod 256) = Some fl ->
  fst (stackPull8 s) = Some fl
  /\ fst (stackPull16 (snd (stackPull8 s))) = wd
  /\ sp (snd (stackPull16 (snd (stackPull8 s)))) = k.
Proof.
  intros Hk Hwd Hsp Hhi Hlo Hfl.
  rewrite stackPull8_eq. cbn [fst snd].
  rewrite Hsp, up_from. change (3 - 1) with 2. rewrite Hfl.
  split; [ reflexivity | ].
  unfold stackPull16.
  rewrite stackPull8_eq. cbn [sp memory set_sp].
  rewrite up_from. change (2 - 1) with 1. rewrite Hlo.
  rewrite stackPull8_eq. cbn [sp memory set_sp fst snd].
  rewrite up_from. change (1 - 1) with 0.
  rewrite Z.sub_0_r, (Z.mod_small k) by lia. rewrite Hhi.
  cbn [JS.ofValue].
  assert (0 <= wd / 256 < 256)
    by (split; [ apply Z.div_pos | apply Z.div_lt_upper_bound ]; lia).
  pose proof (Z.mod_pos_bound wd 256).
  rewrite (JSFacts.shl_small (wd / 256) 8) by (change (2 ^ 8) with 256; lia).
  change (2 ^ 8) with 256.
  rewrite JSFacts.bor_small, JSFacts.lor_bytes by lia.
  pose proof (Z.div_mod wd 256). split; [ lia | reflexivity ].
Qed.

(** X16: the frame the NMI service pushes is the one a return from
    interrupt needs: on the state [tick] leaves, [stackPull8] gives back
    the status byte and the following [stackPull16] gives back the
    interrupted [pc], with [sp] where it was before the interrupt. *)
Theorem nmi_frame_reads_back (s : CPU) :
  stallCounter s = 0 ->
  interrupt s = Some NMI ->
  0 <= sp s <= 255 ->
  0 <= pc s <= 0xFFFF ->
  flags_are_bits s ->
  exists s',
    tick s = Ok (7, s')
    /\ fst (stackPull8 s') = Some (getFlags s)
    /\ fst (stackPull16 (snd (stackPull8 s'))) = pc s
    /\ sp (snd (stackPull16 (snd (stackPull8 s')))) = sp s.
Proof.
  intros Hstall Hirq Hsp Hpc Hflags.
  destruct (getFlags_bits s Hflags) as (_ & Hmask & Hbyte & _ & _).
  destruct (tick_nmi_eq s ltac:(lia) Hirq) as [p Heq].
  rewrite Hmask in Heq.
  set (s1 := stackPush16 (pc s) (set_b 0 s)) in *.
  set (s2 := stackPush8 (getFlags s) s1) in *.
  destruct (nmi_service_fields (fst (read16 0xFFFA s)) p s2)
    as (Hm & Hs & _).
  assert (Hsp1 : sp s1 = (sp s - 2) mod 256)
    by (subst s1; rewrite sp_stackPush16; reflexivity).
  assert (Hsp2 : sp s2 = (sp s - 3) mod 256).
  { subst s2. rewrite sp_stackPush8, Hsp1, Zminus_mod_idemp_l.
    f_equal. lia. }
  assert (Hmem2 : memory s2
                  = CPUMemory.stack_set (memory s1) (sp s1) (getFlags s))
    by reflexivity.
  assert (Hsp0 : 0 <= sp (set_b 0 s) <= 255) by exact Hsp.
  destruct (stackPush16_cells (pc s) (set_b 0 s) Hsp0 Hpc) as [Hhi Hlo].
  fold s1 in Hhi, Hlo. change (sp (set_b 0 s)) with (sp s) in Hhi, Hlo.
  destruct (below2_ne (sp s) Hsp) as [Hne0 Hne1].
  pose proof (Z.mod_pos_bound (sp s - 2) 256).
  match type of Heq with
  | _ = Ok (_, ?final) => set (s' := final) in *
  end.
  clearbody s'. exists s'. split; [ exact Heq | ].
  apply (frame_read_back s' (sp s) (getFlags s) (pc s)); try assumption.
  - now rewrite Hs.
  - rewrite Hm, Hmem2, Hsp1.
    now rewrite StackFacts.get_set_ne by assumption.
  - rewrite Hm, Hmem2, Hsp1.
    now rewrite StackFacts.get_set_ne by assumption.
  - rewrite Hm, Hmem2, Hsp1.
    rewrite StackFacts.get_set_eq, (Z.mod_small (getFlags s)) by lia.
    reflexivity.
Qed.

(** *** The widths are kept *)

Lemma well_formed_stackPush8 (val : Z) (s : CPU) :
  well_formed s -> well_formed (stackPush8 val s).
Proof.
  destruct s. unfold well_formed, flags_are_bits, bit, stackPush8.
  cbn [pc sp a x y c z i d v n cycles stallCounter set_sp set_memory].
  rewrite JSFacts.band_0xFF.
  match goal with
  | |- context [(?k - 1) mod 256] => pose proof (Z.mod_pos_bound (k - 1) 256)
  end.
  lia.
Qed.

Lemma well_formed_stackPull8 (s : CPU) :
  well_formed s -> well_formed (snd (stackPull8 s)).
Proof.
  rewrite stackPull8_eq. cbn [snd].
  destruct s. unfold well_formed, flags_are_bits, bit.
  cbn [pc sp a x y c z i d v n cycles stallCounter set_sp].
  match goal with
  | |- context [(?k + 1) mod 256] => pose proof (Z.mod_pos_bound (k + 1) 256)
  end.
  lia.
Qed.

Lemma well_formed_setFlags (val : Z) (s : CPU) :
  well_formed s -> well_formed (setFlags val s).
Proof.
  destruct s. unfold well_formed, flags_are_bits, bit, setFlags.
  cbn [pc sp a x y c z i d v n cycles stallCounter
       set_c set_z set_i set_d set_v set_n].
  rewrite !flag_of_bit by lia.
  destruct (Z.testbit val 0), (Z.testbit val 1), (Z.testbit val 2),
    (Z.testbit val 3), (Z.testbit val 6), (Z.testbit val 7);
    cbn [Z.b2z]; lia.
Qed.

(** X17: the stack and flag methods, [stall] and [triggerNMI] keep the
    widths of the data model: from a state whose [pc] is 16 bits wide,
    whose [sp], [a], [x] and [y] are bytes, whose flags are bits and whose
    counters are not negative, each of them gives such a state again,
    whatever value it is handed. *)
Theorem methods_keep_well_formed (val : Z) (s : CPU) :
  well_formed s ->
  well_formed (stall s)
  /\ well_formed (triggerNMI s)
  /\ well_formed (stackPush8 val s)
  /\ well_formed (stackPush16 val s)
  /\ well_formed (snd (stackPull8 s))
  /\ well_formed (snd (stackPull16 s))
  /\ well_formed (setFlags val s)
  /\ well_formed (setZeroFlag val s)
  /\ well_formed (setNegativeFlag val s).
Proof.
  intros Hwf.
  split; [ | split; [ | split; [ | split; [ | split; [ | split;
    [ | split; [ | split ]]]]]]].
  - revert Hwf. unfold stall. destruct s.
    unfold well_formed, flags_are_bits, bit.
    destruct (JS.rem _ 2 =? 1);
      cbn [pc sp a x y c z i d v n cycles stallCounter set_stallCounter];
      lia.
  - revert Hwf. unfold triggerNMI. destruct s. exact (fun Hwf => Hwf).
  - now apply well_formed_stackPush8.
  - unfold stackPush16. now do 2 apply well_formed_stackPush8.
  - now apply well_formed_stackPull8.
  - unfold stackPull16.
    destruct (stackPull8 s) as [lo s1] eqn:E1.
    destruct (stackPull8 s1) as [hi s2] eqn:E2.
    cbn [snd]. change s2 with (snd (hi, s2)). rewrite <- E2.
    apply well_formed_stackPull8.
    change s1 with (snd (lo, s1)). rewrite <- E1.
    now apply well_formed_stackPull8.
  - now apply well_formed_setFlags.
  - revert Hwf. unfold setZeroFlag. destruct s.
    unfold well_formed, flags_are_bits, bit.
    destruct (val =? 0);
      cbn [pc sp a x y c z i d v n cycles stallCounter set_z]; lia.
  - revert Hwf. unfold setNegativeFlag. destruct s.
    unfold well_formed, flags_are_bits, bit.
    destruct (negb _);
      cbn [pc sp a x y c z i d v n cycles stallCounter set_n]; lia.
Qed.

Lemma tick_other_eq (s : CPU) :
  stallCounter s <= 0 ->
  interrupt s = Some IRQ ->
  tick s = Ok (7, set_interrupt None (set_b 0 s)).
Proof.
  intros Hstall Hirq. unfold tick. cbn [stallCounter interrupt set_b].
  now rewrite (not_stalled s Hstall), Hirq.
Qed.

Lemma nmi_service_well_formed (vec : Z) (p : Mapper) (s : CPU) :
  well_formed s ->
  0 <= vec <= 0xFFFF ->
  well_formed
    (set_interrupt None
       (set_cycles (cycles (set_i 1 (set_pc vec (set_mapper p s))) + 7)
          (set_i 1 (set_pc vec (set_mapper p s))))).
Proof.
  destruct s. unfold well_formed, flags_are_bits, bit.
  cbn [pc sp a x y c z i d v n cycles stallCounter
       set_interrupt set_cycles set_i set_pc set_mapper].
  lia.
Qed.

Lemma well_formed_set_b (k : Z) (s : CPU) :
  well_formed s -> well_formed (set_b k s).
Proof. destruct s. exact (fun Hwf => Hwf). Qed.

(** X18: on the stall and interrupt paths [tick] always returns and keeps
    the widths of the data model, provided the cartridge answers the NMI
    vector with bytes: a well-formed state that is stalled or has an
    interrupt latched steps to a well-formed state. *)
Theorem tick_keeps_well_formed (s : CPU) :
  well_formed s ->
  vector_is_bytes 0xFFFA s ->
  0 < stallCounter s \/ interrupt s <> None ->
  exists k s', tick s = Ok (k, s') /\ well_formed s'.
Proof.
  intros Hwf Hvec Hpath.
  destruct (Z_lt_le_dec 0 (stallCounter s)) as [Hstall | Hidle].
  - exists 0. eexists. split; [ now apply tick_stalled_eq | ].
    revert Hwf Hstall. destruct s.
    unfold well_formed, flags_are_bits, bit.
    cbn [pc sp a x y c z i d v n cycles stallCounter set_stallCounter set_b].
    lia.
  - destruct Hpath as [Hstall | Hlatch]; [ lia | ].
    destruct (interrupt s) as [[ | ] | ] eqn:Hirq; [ | | congruence ].
    + destruct (tick_nmi_eq s Hidle Hirq) as [p Heq].
      exists 7. eexists. split; [ exact Heq | ].
      apply nmi_service_well_formed.
      * apply well_formed_stackPush8. unfold stackPush16.
        do 2 apply well_formed_stackPush8.
        now apply well_formed_set_b.
      * destruct (read16_cartridge_value 0xFFFA s ltac:(lia) Hvec)
          as [-> Hrange]. exact Hrange.
    + exists 7. eexists. split; [ now apply tick_other_eq | ].
      revert Hwf. destruct s. exact (fun Hwf => Hwf).
Qed.

End More.

(** ** The properties on the sample console *)

Import Sample.

(** Settle a closed statement about a concrete machine by evaluation. *)
Ltac by_evaluation :=
  vm_compute; repeat split; intuition (reflexivity || discriminate).

(** After a DMA at cycle 100 the counter is 513 and the next [tick] hands
    0 to the scheduler. *)
Lemma tick_stalled_returns_0_witness :
  0 < stallCounter dma_stalled
  /\ exists s',
       tick dma_stalled = Ok (0, s')
       /\ stallCounter s' = stallCounter dma_stalled - 1
       /\ same_registers dma_stalled s'.
Proof.
  split; [ by_evaluation | apply tick_stalled_returns_0; by_evaluation ].
Defined.

Lemma tick_services_nmi_witness :
  stallCounter nmi_pending = 0
  /\ interrupt nmi_pending = Some NMI
  /\ 0 <= sp nmi_pending <= 255
  /\ 0 <= pc nmi_pending <= 0xFFFF
  /\ flags_are_bits nmi_pending
  /\ exists s',
       tick nmi_pending = Ok (7, s')
       /\ CPUMemory.stack_get (memory s') 0xFD = Some 0x80
       /\ CPUMemory.stack_get (memory s') 0xFC = Some 0x00
       /\ CPUMemory.stack_get (memory s') 0xFB = Some 0xA4
       /\ sp s' = 0xFA
       /\ i s' = 1
       /\ pc s' = 0x9000
       /\ cycles s' = 107
       /\ interrupt s' = None.
Proof.
  assert (Hstall : stallCounter nmi_pending = 0) by reflexivity.
  assert (Hirq : interrupt nmi_pending = Some NMI) by reflexivity.
  assert (Hsp : 0 <= sp nmi_pending <= 255) by by_evaluation.
  assert (Hpc : 0 <= pc nmi_pending <= 0xFFFF) by by_evaluation.
  assert (Hflags : flags_are_bits nmi_pending) by by_evaluation.
  repeat (split; [ assumption | ]).
  destruct (tick_services_nmi nmi_pending Hstall Hirq Hsp Hpc Hflags)
    as (s' & Htick & Hhi & Hlo & Hfl & _ & _ & _ & Hsp' & Hi & Hpc' & Hcy
        & Hlatch).
  exists s'. repeat split; assumption.
Defined.

Lemma read16indirect_page_wrap_witness :
  0 <= 0x02FF <= 0xFFFF
  /\ read16indirect 0x02FF nmi_pending
     = read16indirect_spec 0x02FF nmi_pending
  /\ (Z.land 0x02FF 0xFF = 0xFF ->
      indirect_hi_addr 0x02FF = 256 * (0x02FF / 256)
      /\ indirect_hi_addr 0x02FF <> 0x02FF + 1).
Proof.
  split; [ lia | apply (read16indirect_page_wrap 0x02FF nmi_pending); lia ].
Defined.

Lemma stall_adds_513_or_514_witness :
  0 <= cycles (set_cycles 101 nmi_pending)
  /\ stall (set_cycles 101 nmi_pending)
     = set_stallCounter 514 (set_cycles 101 nmi_pending).
Proof.
  split; [ by_evaluation | ].
  apply (stall_adds_513_or_514 (set_cycles 101 nmi_pending)). by_evaluation.
Defined.

Lemma flags_round_trip_witness :
  0 <= 0xFF <= 255
  /\ getFlags (setFlags 0xFF nmi_pending) = 0xEF.
Proof.
  split; [ lia | ].
  apply (flags_round_trip 0xFF nmi_pending). lia.
Defined.

Lemma stack_256_pushes_restore_sp_witness :
  length (repeat 0x55 256) = 256%nat
  /\ 0 <= sp nmi_pending <= 255
  /\ sp (stackPushAll (repeat 0x55 256) nmi_pending) = sp nmi_pending.
Proof.
  assert (Hlen : length (repeat 0x55 256) = 256%nat) by apply repeat_length.
  assert (Hsp : 0 <= sp nmi_pending <= 255) by by_evaluation.
  repeat (split; [ assumption | ]).
  exact (stack_256_pushes_restore_sp _ nmi_pending Hlen Hsp).
Defined.

(** C7 as written fails: from [sp] = $FD, 257 pushes end at $FC. *)
Lemma stack_257_pushes_counterexample :
  sp nmi_pending = 0xFD
  /\ sp (stackPushAll (repeat 0x55 257) nmi_pending) = 0xFC
  /\ sp (stackPushAll (repeat 0x55 257) nmi_pending) <> sp nmi_pending.
Proof. by_evaluation. Qed.

Lemma stack16_round_trip_witness :
  0 <= sp nmi_pending <= 255
  /\ 0 <= 0x1234 <= 0xFFFF
  /\ fst (stackPull16 (stackPush16 0x1234 nmi_pending)) = 0x1234
  /\ sp (snd (stackPull16 (stackPush16 0x1234 nmi_pending)))
     = sp nmi_pending
  /\ CPUMemory.read8 (memory (stackPush16 0x1234 nmi_pending))
       (push16_hi_addr nmi_pending) = 0x1234 / 256
  /\ CPUMemory.read8 (memory (stackPush16 0x1234 nmi_pending))
       (push16_lo_addr 0x1234 nmi_pending) = 0x1234 mod 256
  /\ push16_lo_addr 0x1234 nmi_pending
     = stackAddr ((sp nmi_pending - 1) mod 256)
  /\ (1 <= sp nmi_pending ->
      push16_lo_addr 0x1234 nmi_pending = push16_hi_addr nmi_pending - 1).
Proof.
  assert (Hsp : 0 <= sp nmi_pending <= 255) by by_evaluation.
  assert (Hval : 0 <= 0x1234 <= 0xFFFF) by lia.
  repeat (split; [ assumption | ]).
  exact (stack16_round_trip 0x1234 nmi_pending Hsp Hval).
Defined.

(** C8 as written fails at [sp] = 0: the high byte of $1234 goes to $0100
    and the low byte wraps to $01FF, the higher address. *)
Lemma stack16_layout_counterexample :
  let s1 := stackPush16 0x1234 sp_at_zero in
  fst (stackPull16 s1) = 0x1234
  /\ push16_hi_addr sp_at_zero = 0x0100
  /\ push16_lo_addr 0x1234 sp_at_zero = 0x01FF
  /\ CPUMemory.read8 (memory s1) 0x0100 = 0x12
  /\ CPUMemory.read8 (memory s1) 0x01FF = 0x34
  /\ ~ push16_lo_addr 0x1234 sp_at_zero < push16_hi_addr sp_at_zero.
Proof. by_evaluation. Qed.

Lemma reserved_window_inert_witness :
  reserved 0x4017 = true
  /\ fst (read8 0x4017 nmi_pending) = 0
  /\ (exists out, snd (read8 0x4017 nmi_pending) = set_stdout out nmi_pending)
  /\ write8 0x4017 0x40 nmi_pending = nmi_pending.
Proof.
  split; [ reflexivity | ].
  apply (reserved_window_inert nmi_pending 0x4017 0x40). reflexivity.
Defined.

Lemma tick_drops_other_interrupt_witness :
  stallCounter irq_pending = 0
  /\ interrupt irq_pending = Some IRQ
  /\ IRQ <> NMI
  /\ exists s',
       tick irq_pending = Ok (7, s')
       /\ interrupt s' = None
       /\ same_registers irq_pending s'
       /\ 7 <> cycles s' - cycles irq_pending.
Proof.
  assert (Hstall : stallCounter irq_pending = 0) by reflexivity.
  assert (Hirq : interrupt irq_pending = Some IRQ) by reflexivity.
  assert (Hother : IRQ <> NMI) by discriminate.
  repeat (split; [ assumption | ]).
  exact (tick_drops_other_interrupt irq_pending IRQ Hstall Hirq Hother).
Defined.

(** ** The further properties on the sample console *)


Lemma stack_writes_stay_in_page_witness :
  (0x0200 mod 2048 < 0x0100 \/ 0x01FF < 0x0200 mod 2048)
  /\ CPUMemory.read8 (memory (stackPush8 0x55 nmi_pending)) 0x0200
     = CPUMemory.read8 (memory nmi_pending) 0x0200
  /\ CPUMemory.read8 (memory (stackPush16 0x55 nmi_pending)) 0x0200
     = CPUMemory.read8 (memory nmi_pending) 0x0200
  /\ forget_stack (stackPush8 0x55 nmi_pending) = forget_stack nmi_pending
  /\ forget_stack (stackPush16 0x55 nmi_pending) = forget_stack nmi_pending.
Proof.
  assert (Hout : 0x0200 mod 2048 < 0x0100 \/ 0x01FF < 0x0200 mod 2048)
    by (right; reflexivity).
  split; [ exact Hout | ].
  exact (stack_writes_stay_in_page 0x55 nmi_pending 0x0200 Hout).
Defined.

Lemma setFlags_getFlags_witness :
  flags_are_bits nmi_pending
  /\ setFlags (getFlags nmi_pending) nmi_pending = nmi_pending.
Proof.
  assert (Hflags : flags_are_bits nmi_pending) by by_evaluation.
  split; [ exact Hflags | ].
  exact (setFlags_getFlags nmi_pending Hflags).
Defined.

Lemma zero_and_negative_flags_witness :
  0 <= 0x80 <= 255
  /\ z (setNegativeFlag 0x80 (setZeroFlag 0x80 idle)) = 0
  /\ n (setNegativeFlag 0x80 (setZeroFlag 0x80 idle)) = 1.
Proof.
  assert (Hval : 0 <= 0x80 <= 255) by lia.
  split; [ exact Hval | ].
  destruct (zero_and_negative_flags 0x80 idle Hval) as (Hz & Hn & _).
  split; [ exact Hz | exact Hn ].
Defined.

Lemma ppu_registers_mirrored_witness :
  0x2000 <= 0x3FFA < 0x4000
  /\ read8 0x3FFA nmi_pending = read8 0x2002 nmi_pending
  /\ write8 0x3FFA 0x80 nmi_pending = write8 0x2002 0x80 nmi_pending.
Proof.
  assert (Haddr : 0x2000 <= 0x3FFA < 0x4000) by lia.
  split; [ exact Haddr | ].
  destruct (ppu_registers_mirrored 0x3FFA 0x80 nmi_pending Haddr)
    as (_ & Hr & _ & Hw).
  split; [ exact Hr | exact Hw ].
Defined.

Lemma bus_outside_ppu_keeps_cpu_witness :
  ppu_window 0x8000 = false
  /\ registers (snd (read8 0x8000 nmi_pending)) = registers nmi_pending
  /\ memory (snd (read8 0x8000 nmi_pending)) = memory nmi_pending
  /\ registers (write8 0x8000 0x01 nmi_pending) = registers nmi_pending
  /\ (0x2000 <= 0x8000 ->
      memory (write8 0x8000 0x01 nmi_pending) = memory nmi_pending).
Proof.
  assert (Hwin : ppu_window 0x8000 = false) by reflexivity.
  split; [ exact Hwin | ].
  exact (bus_outside_ppu_keeps_cpu 0x8000 0x01 nmi_pending Hwin).
Defined.

Lemma read16_cartridge_word_witness :
  0x6000 <= 0xFFFC
  /\ vector_is_bytes 0xFFFC nmi_pending
  /\ fst (read16 0xFFFC nmi_pending) = 0x1234.
Proof.
  assert (Haddr : 0x6000 <= 0xFFFC) by lia.
  assert (Hbytes : vector_is_bytes 0xFFFC nmi_pending) by by_evaluation.
  split; [ exact Haddr | split; [ exact Hbytes | ]].
  destruct (read16_cartridge_word 0xFFFC nmi_pending Haddr Hbytes)
    as (Hword & _).
  exact Hword.
Defined.

Lemma reset_well_formed_witness :
  vector_is_bytes 0xFFFC nmi_pending
  /\ registers (reset nmi_pending)
     = (0x1234, 0xFD, (0, 0, 0), (0, 0, 1, 0, 0, 0), (0, 0), None, 0)
  /\ well_formed (reset nmi_pending).
Proof.
  assert (Hbytes : vector_is_bytes 0xFFFC nmi_pending) by by_evaluation.
  split; [ exact Hbytes | ].
  destruct (reset_well_formed nmi_pending Hbytes) as (Hregs & _ & Hwf).
  split; [ exact Hregs | exact Hwf ].
Defined.

Lemma read16indirect_in_ram_witness :
  0 <= 0x0010
  /\ 0x0010 + 1 < 0x2000
  /\ Z.land 0x0010 0xFF <> 0xFF
  /\ read16indirect 0x0010 nmi_pending = read16 0x0010 nmi_pending.
Proof.
  assert (Hlo : 0 <= 0x0010) by lia.
  assert (Hhi : 0x0010 + 1 < 0x2000) by lia.
  assert (Hlow : Z.land 0x0010 0xFF <> 0xFF) by discriminate.
  repeat (split; [ assumption | ]).
  exact (read16indirect_in_ram 0x0010 nmi_pending Hlo Hhi Hlow).
Defined.

Lemma tick_reports_elapsed_cycles_witness :
  tick nmi_pending = Ok (7, nmi_serviced)
  /\ (0 < stallCounter nmi_pending \/ interrupt nmi_pending = None
      \/ interrupt nmi_pending = Some NMI)
  /\ 7 = cycles nmi_serviced - cycles nmi_pending.
Proof.
  assert (Htick : tick nmi_pending = Ok (7, nmi_serviced))
    by (vm_compute; reflexivity).
  assert (Hpath : 0 < stallCounter nmi_pending \/ interrupt nmi_pending = None
                  \/ interrupt nmi_pending = Some NMI)
    by (right; right; reflexivity).
  split; [ exact Htick | split; [ exact Hpath | ]].
  exact (tick_reports_elapsed_cycles nmi_pending nmi_serviced 7 Htick Hpath).
Defined.

Lemma run_stalled_witness :
  (0 < 3)%nat
  /\ stallCounter (set_stallCounter 3 nmi_pending) = Z.of_nat 3
  /\ run 3 (set_stallCounter 3 nmi_pending)
     = Ok ([0; 0; 0], set_stallCounter 0 (set_b 0 nmi_pending)).
Proof.
  assert (Hpos : (0 < 3)%nat) by lia.
  assert (Hstall : stallCounter (set_stallCounter 3 nmi_pending) = Z.of_nat 3)
    by reflexivity.
  split; [ exact Hpos | split; [ exact Hstall | ]].
  exact (run_stalled 3 (set_stallCounter 3 nmi_pending) Hpos Hstall).
Defined.

Lemma dma_stall_run_witness :
  stallCounter idle = 0
  /\ 0 <= cycles idle
  /\ run 513 (stall idle)
     = Ok (repeat 0 513, set_stallCounter 0 (set_b 0 idle)).
Proof.
  assert (Hidle : stallCounter idle = 0) by reflexivity.
  assert (Hcycles : 0 <= cycles idle) by by_evaluation.
  split; [ exact Hidle | split; [ exact Hcycles | ]].
  exact (dma_stall_run idle Hidle Hcycles).
Defined.

Lemma nmi_frame_reads_back_witness :
  stallCounter nmi_pending = 0
  /\ interrupt nmi_pending = Some NMI
  /\ 0 <= sp nmi_pending <= 255
  /\ 0 <= pc nmi_pending <= 0xFFFF
  /\ flags_are_bits nmi_pending
  /\ exists s',
       tick nmi_pending = Ok (7, s')
       /\ fst (stackPull8 s') = Some 0xA4
       /\ fst (stackPull16 (snd (stackPull8 s'))) = 0x8000
       /\ sp (snd (stackPull16 (snd (stackPull8 s')))) = 0xFD.
Proof.
  assert (Hstall : stallCounter nmi_pending = 0) by reflexivity.
  assert (Hirq : interrupt nmi_pending = Some NMI) by reflexivity.
  assert (Hsp : 0 <= sp nmi_pending <= 255) by by_evaluation.
  assert (Hpc : 0 <= pc nmi_pending <= 0xFFFF) by by_evaluation.
  assert (Hflags : flags_are_bits nmi_pending) by by_evaluation.
  repeat (split; [ assumption | ]).
  exact (nmi_frame_reads_back nmi_pending Hstall Hirq Hsp Hpc Hflags).
Defined.

Lemma methods_keep_well_formed_witness :
  well_formed nmi_pending
  /\ well_formed (stall nmi_pending)
  /\ well_formed (stackPush16 0x1234 nmi_pending)
  /\ well_formed (setFlags 0xFF nmi_pending).
Proof.
  assert (Hwf : well_formed nmi_pending) by by_evaluation.
  split; [ exact Hwf | ].
  destruct (methods_keep_well_formed 0x1234 nmi_pending Hwf)
    as (Hstall & _ & _ & Hpush & _).
  destruct (methods_keep_well_formed 0xFF nmi_pending Hwf)
    as (_ & _ & _ & _ & _ & _ & Hflags & _).
  split; [ exact Hstall | split; [ exact Hpush | exact Hflags ]].
Defined.

Lemma tick_keeps_well_formed_witness :
  well_formed nmi_pending
  /\ vector_is_bytes 0xFFFA nmi_pending
  /\ (0 < stallCounter nmi_pending \/ interrupt nmi_pending <> None)
  /\ exists k s', tick nmi_pending = Ok (k, s') /\ well_formed s'.
Proof.
  assert (Hwf : well_formed nmi_pending) by by_evaluation.
  assert (Hvec : vector_is_bytes 0xFFFA nmi_pending) by by_evaluation.
  assert (Hpath : 0 < stallCounter nmi_pending \/ interrupt nmi_pending <> None)
    by (right; discriminate).
  repeat (split; [ assumption | ]).
  exact (tick_keeps_well_formed nmi_pending Hwf Hvec Hpath).
Defined.
